(** * scope_gl.h: scoped push/pop macros over the OpenGL state machine

    A shallow embedding of the header [scope_gl.h].  Every scope macro of the
    header is a C [for] header that waits for the statement that follows it:

      for (T old, i = (query, set, 0); i == 0; (i += 1, exit))  body

    The embedding keeps that shape.  A macro is a [for_header] (declaration
    with initialiser, condition, step); [exec_for] is the semantics of the C
    [for] statement over a body that may fall through, [break], [continue],
    [return] or (in C++) throw.  The OpenGL context, which the header only
    reaches through gl* calls, is an in-memory slot store with a log of the
    calls made. *)

From Stdlib Require Import ZArith List String Lia.
From Stdlib Require Import DecimalString DecimalNat.
Import ListNotations.
Local Open Scope Z_scope.

(** ** OpenGL enumerants used by the header

    The header expects the including translation unit to provide the OpenGL
    declarations; the values below are the ones of the Khronos headers
    (glcorearb.h). *)
Module GLenum.

Definition GL_FALSE : Z := 0.
Definition GL_TRUE : Z := 1.

Definition GL_CURRENT_PROGRAM : Z := 0x8B8D.
Definition GL_VERTEX_ARRAY_BINDING : Z := 0x85B5.

Definition GL_TEXTURE_1D : Z := 0x0DE0.
Definition GL_TEXTURE_2D : Z := 0x0DE1.
Definition GL_TEXTURE_3D : Z := 0x806F.
Definition GL_TEXTURE_1D_ARRAY : Z := 0x8C18.
Definition GL_TEXTURE_2D_ARRAY : Z := 0x8C1A.
Definition GL_TEXTURE_RECTANGLE : Z := 0x84F5.
Definition GL_TEXTURE_CUBE_MAP : Z := 0x8513.
Definition GL_TEXTURE_CUBE_MAP_ARRAY : Z := 0x9009.
Definition GL_TEXTURE_BUFFER : Z := 0x8C2A.
Definition GL_TEXTURE_2D_MULTISAMPLE : Z := 0x9100.
Definition GL_TEXTURE_2D_MULTISAMPLE_ARRAY : Z := 0x9102.

Definition GL_TEXTURE_BINDING_1D : Z := 0x8068.
Definition GL_TEXTURE_BINDING_2D : Z := 0x8069.
Definition GL_TEXTURE_BINDING_3D : Z := 0x806A.
Definition GL_TEXTURE_BINDING_1D_ARRAY : Z := 0x8C1C.
Definition GL_TEXTURE_BINDING_2D_ARRAY : Z := 0x8C1D.
Definition GL_TEXTURE_BINDING_RECTANGLE : Z := 0x84F6.
Definition GL_TEXTURE_BINDING_CUBE_MAP : Z := 0x8514.
Definition GL_TEXTURE_BINDING_CUBE_MAP_ARRAY : Z := 0x900A.
Definition GL_TEXTURE_BINDING_BUFFER : Z := 0x8C2C.
Definition GL_TEXTURE_BINDING_2D_MULTISAMPLE : Z := 0x9104.
Definition GL_TEXTURE_BINDING_2D_MULTISAMPLE_ARRAY : Z := 0x9105.

Definition GL_ARRAY_BUFFER : Z := 0x8892.
Definition GL_ARRAY_BUFFER_BINDING : Z := 0x8894.
(* A property name of the program-interface query, not a glGet name. *)
Definition GL_BUFFER_BINDING : Z := 0x9302.
Definition GL_SHADER_STORAGE_BUFFER : Z := 0x90D2.
Definition GL_SHADER_STORAGE_BUFFER_BINDING : Z := 0x90D3.

Definition GL_READ_FRAMEBUFFER : Z := 0x8CA8.
Definition GL_DRAW_FRAMEBUFFER : Z := 0x8CA9.
Definition GL_FRAMEBUFFER : Z := 0x8D40.
Definition GL_FRAMEBUFFER_BINDING : Z := 0x8CA6.
Definition GL_RENDERBUFFER : Z := 0x8D41.

Definition GL_VIEWPORT : Z := 0x0BA2.
Definition GL_COLOR_CLEAR_VALUE : Z := 0x0C22.
Definition GL_BLEND : Z := 0x0BE2.
Definition GL_BLEND_DST : Z := 0x0BE0.
Definition GL_BLEND_SRC : Z := 0x0BE1.
Definition GL_BLEND_EQUATION : Z := 0x8009.
Definition GL_CULL_FACE_MODE : Z := 0x0B45.
Definition GL_FRONT_FACE : Z := 0x0B46.

Definition GL_TEXTURE_BORDER_COLOR : Z := 0x1004.
Definition GL_TEXTURE_MAG_FILTER : Z := 0x2800.
Definition GL_TEXTURE_MIN_FILTER : Z := 0x2801.
Definition GL_TEXTURE_SWIZZLE_RGBA : Z := 0x8E46.
Definition GL_NEAREST : Z := 0x2600.
Definition GL_LINEAR : Z := 0x2601.

End GLenum.
Export GLenum.

(** ** The context: one value per state slot

    A slot is a (category, target) pair whose value lives in the context.
    Values of type GLint, GLuint, GLenum and GLfloat are represented by their
    32-bit pattern, so the implicit conversions between GLint locals and
    GLuint parameters, which keep the pattern, do not appear.  Slots with
    several components (viewport, clear colour, an attachment, a uniform)
    are indexed by component. *)
Inductive slot : Type :=
| CurrentProgram
| VertexArrayBinding
| TextureBinding (target : Z)
| BufferBinding (target : Z)
| BufferBaseBinding (target index : Z)
| Capability (cap : Z)
| FramebufferBinding (target : Z)
| RenderbufferBinding (target : Z)
| AttachmentTarget (target attachment : Z)
| AttachmentObject (target attachment : Z)
| AttachmentLevel (target attachment : Z)
| Viewport (k : nat)
| ClearColor (k : nat)
| BlendSrc
| BlendDst
| BlendEquation
| CullFaceMode
| FrontFace
| TexParameter (target pname : Z) (k : nat)
| UniformValue (program location : Z) (k : nat).

Definition slot_eq_dec (a b : slot) : {a = b} + {a <> b}.
Proof.
  decide equality; solve [apply Z.eq_dec | apply Nat.eq_dec].
Defined.

Definition slot_eqb (a b : slot) : bool :=
  if slot_eq_dec a b then true else false.

(** Names of linked programs' uniforms are part of the context too:
    [uniform_location p name] is what glGetUniformLocation answers and
    [uniform_components p loc] the number of floats of the uniform at [loc]
    (1 for a float, 16 for a mat4). *)
Record GLctx : Type := mkGLctx {
  slot_value : slot -> Z;
  uniform_location : Z -> string -> Z;
  uniform_components : Z -> Z -> nat
}.

Definition get (c : GLctx) (s : slot) : Z := slot_value c s.

Definition set (s : slot) (v : Z) (c : GLctx) : GLctx :=
  {| slot_value := fun s' => if slot_eqb s s' then v else slot_value c s';
     uniform_location := uniform_location c;
     uniform_components := uniform_components c |}.

(** Writing the components [vs] of a multi-component slot, first component
    at index [k]. *)
Fixpoint set_components (f : nat -> slot) (k : nat) (vs : list Z) (c : GLctx) : GLctx :=
  match vs with
  | [] => c
  | v :: vs' => set_components f (S k) vs' (set (f k) v c)
  end.

Definition get_components (f : nat -> slot) (n : nat) (c : GLctx) : list Z :=
  map (fun k => get c (f k)) (seq 0 n).

(** ** Calls into the context

    The log records every call the program makes, in order.  A computation
    takes the context and gives back a result, the new context and the calls
    it made. *)

(** The suffix [ext] that [scope_glTex2DParameter] pastes into the names of
    its calls (line 225).  The scalar entry points glTexParameteri and
    glTexParameterf take the value itself; the vector entry points
    glTexParameterfv, glTexParameteriv, glTexParameterIiv and
    glTexParameterIuiv take a pointer to the values. *)
Inductive texparam_scalar_ext : Type := ext_i | ext_f.
Inductive texparam_vector_ext : Type := ext_fv | ext_iv | ext_Iiv | ext_Iuiv.
Inductive texparam_ext : Type :=
| scalar (e : texparam_scalar_ext)
| vector (e : texparam_vector_ext).

(** A pointer argument: the null pointer, or a pointer to an array that
    holds [data]. *)
Inductive pointer : Type := NULL | to_array (data : list Z).

Inductive gl_call : Type :=
| Call_glGetIntegerv (pname : Z)
| Call_glGetBooleanv (pname : Z)
| Call_glGetFloatv (pname : Z)
| Call_glUseProgram (program : Z)
| Call_glBindVertexArray (array : Z)
| Call_glBindTexture (target texture : Z)
| Call_glBindBuffer (target buffer : Z)
| Call_glBindBufferBase (target index buffer : Z)
| Call_glEnable (cap : Z)
| Call_glDisable (cap : Z)
| Call_glBindFramebuffer (target framebuffer : Z)
| Call_glFramebufferTexture2D (target attachment textarget texture level : Z)
| Call_glBindRenderbuffer (target renderbuffer : Z)
| Call_glFramebufferRenderbuffer (target attachment renderbuffertarget renderbuffer : Z)
| Call_glViewport (x y width height : Z)
| Call_glClearColor (red green blue alpha : Z)
| Call_glBlendFunc (sfactor dfactor : Z)
| Call_glBlendEquation (mode : Z)
| Call_glCullFace (mode : Z)
| Call_glFrontFace (mode : Z)
| Call_glGetTexParameter (ext : texparam_scalar_ext) (target pname : Z)
| Call_glTexParameter (ext : texparam_scalar_ext) (target pname param : Z)
| Call_glTexParameterv (ext : texparam_vector_ext) (target pname : Z) (params : pointer)
| Call_glGetUniformLocation (program : Z) (name : string)
| Call_glGetUniformfv (program location : Z)
| Call_glUniformMatrix4fv (location count transpose : Z) (value : list Z)
| Call_glUniform1f (location v0 : Z)
| Call_glDrawArrays (mode first count : Z).

Definition M (A : Type) : Type := GLctx -> A * GLctx * list gl_call.

Definition ret {A : Type} (a : A) : M A := fun c => (a, c, []).

Definition bind {A B : Type} (m : M A) (k : A -> M B) : M B :=
  fun c =>
    let '(a, c1, t1) := m c in
    let '(b, c2, t2) := k a c1 in
    (b, c2, t1 ++ t2).

Declare Scope gl_scope.
Delimit Scope gl_scope with gl.
Notation "x <- m ;; k" := (bind m (fun x => k))
  (at level 61, m at next level, right associativity) : gl_scope.
Notation "m ;; k" := (bind m (fun _ => k))
  (at level 61, right associativity) : gl_scope.
Local Open Scope gl_scope.

Definition result_of {A : Type} (r : A * GLctx * list gl_call) : A := fst (fst r).
Definition ctx_of {A : Type} (r : A * GLctx * list gl_call) : GLctx := snd (fst r).
Definition log_of {A : Type} (r : A * GLctx * list gl_call) : list gl_call := snd r.

(** A call that changes the context and answers nothing. *)
Definition command (e : gl_call) (f : GLctx -> GLctx) : M unit :=
  fun c => (tt, f c, [e]).

(** A glGet*v destination: the values overwrite the leading cells of the
    caller's buffer; cells the call does not reach keep what they held. *)
Definition overwrite (data vals : list Z) : list Z :=
  firstn (List.length data) vals ++ skipn (List.length vals) data.

(** *** Queries *)

(** Which binding name reads the binding of which texture target. *)
Definition texture_binding_names : list (Z * Z) :=
  [ (GL_TEXTURE_BINDING_1D, GL_TEXTURE_1D);
    (GL_TEXTURE_BINDING_2D, GL_TEXTURE_2D);
    (GL_TEXTURE_BINDING_3D, GL_TEXTURE_3D);
    (GL_TEXTURE_BINDING_1D_ARRAY, GL_TEXTURE_1D_ARRAY);
    (GL_TEXTURE_BINDING_2D_ARRAY, GL_TEXTURE_2D_ARRAY);
    (GL_TEXTURE_BINDING_RECTANGLE, GL_TEXTURE_RECTANGLE);
    (GL_TEXTURE_BINDING_CUBE_MAP, GL_TEXTURE_CUBE_MAP);
    (GL_TEXTURE_BINDING_CUBE_MAP_ARRAY, GL_TEXTURE_CUBE_MAP_ARRAY);
    (GL_TEXTURE_BINDING_BUFFER, GL_TEXTURE_BUFFER);
    (GL_TEXTURE_BINDING_2D_MULTISAMPLE, GL_TEXTURE_2D_MULTISAMPLE);
    (GL_TEXTURE_BINDING_2D_MULTISAMPLE_ARRAY, GL_TEXTURE_2D_MULTISAMPLE_ARRAY) ].

Fixpoint assoc (k : Z) (l : list (Z * Z)) : option Z :=
  match l with
  | [] => None
  | (k', v) :: l' => if k =? k' then Some v else assoc k l'
  end.

(** The slots a glGetIntegerv name reads, among the names the header uses.
    A value that is not a query name (a bind target such as GL_FRAMEBUFFER,
    GL_BUFFER_BINDING, 0) reads nothing: the call raises GL_INVALID_ENUM and
    leaves the destination as it was. *)
Definition integer_state (pname : Z) : option (list slot) :=
  if pname =? GL_CURRENT_PROGRAM then Some [CurrentProgram]
  else if pname =? GL_VERTEX_ARRAY_BINDING then Some [VertexArrayBinding]
  else if pname =? GL_ARRAY_BUFFER_BINDING then Some [BufferBinding GL_ARRAY_BUFFER]
  else if pname =? GL_SHADER_STORAGE_BUFFER_BINDING
       then Some [BufferBinding GL_SHADER_STORAGE_BUFFER]
  else if pname =? GL_FRAMEBUFFER_BINDING
       then Some [FramebufferBinding GL_DRAW_FRAMEBUFFER]
  else if pname =? GL_VIEWPORT
       then Some [Viewport 0; Viewport 1; Viewport 2; Viewport 3]
  else if pname =? GL_BLEND_SRC then Some [BlendSrc]
  else if pname =? GL_BLEND_DST then Some [BlendDst]
  else if pname =? GL_BLEND_EQUATION then Some [BlendEquation]
  else if pname =? GL_CULL_FACE_MODE then Some [CullFaceMode]
  else if pname =? GL_FRONT_FACE then Some [FrontFace]
  else match assoc pname texture_binding_names with
       | Some target => Some [TextureBinding target]
       | None => None
       end.

Definition glGetIntegerv (pname : Z) (data : list Z) : M (list Z) :=
  fun c =>
    (match integer_state pname with
     | Some ss => overwrite data (map (get c) ss)
     | None => data
     end, c, [Call_glGetIntegerv pname]).

(** [glGetIntegerv(pname, &x)] for a scalar local [x]. *)
Definition glGetIntegerv1 (pname : Z) (x : Z) : M Z :=
  data <- glGetIntegerv pname [x];; ret (hd x data).

Definition float_state (pname : Z) : option (list slot) :=
  if pname =? GL_COLOR_CLEAR_VALUE
  then Some [ClearColor 0; ClearColor 1; ClearColor 2; ClearColor 3]
  else None.

Definition glGetFloatv (pname : Z) (data : list Z) : M (list Z) :=
  fun c =>
    (match float_state pname with
     | Some ss => overwrite data (map (get c) ss)
     | None => data
     end, c, [Call_glGetFloatv pname]).

(** glGetBooleanv on a capability writes one GLboolean: GL_TRUE when the
    capability is enabled, GL_FALSE otherwise. *)
Definition glGetBooleanv (pname : Z) : M Z :=
  fun c =>
    (if get c (Capability pname) =? 0 then GL_FALSE else GL_TRUE,
     c, [Call_glGetBooleanv pname]).

(** glGetTexParameteriv and glGetTexParameterfv on a parameter of one
    value: the result is the 32 bits the call stores through its pointer
    argument. *)
Definition glGetTexParameterv (ext : texparam_scalar_ext) (target pname : Z) : M Z :=
  fun c => (get c (TexParameter target pname 0), c, [Call_glGetTexParameter ext target pname]).

Definition glGetUniformLocation (program : Z) (name : string) : M Z :=
  fun c => (uniform_location c program name, c, [Call_glGetUniformLocation program name]).

Definition glGetUniformfv (program location : Z) (params : list Z) : M (list Z) :=
  fun c =>
    (overwrite params
       (get_components (UniformValue program location)
                       (uniform_components c program location) c),
     c, [Call_glGetUniformfv program location]).

(** *** Commands

    Every command stores its arguments in the slot its target arguments
    address.  Validation of object names and enum values, texture units and
    the indirection through bound objects are outside the model: the header
    never calls glGetError and never changes the active unit. *)
Definition glUseProgram (program : Z) : M unit :=
  command (Call_glUseProgram program) (set CurrentProgram program).

Definition glBindVertexArray (array : Z) : M unit :=
  command (Call_glBindVertexArray array) (set VertexArrayBinding array).

Definition glBindTexture (target texture : Z) : M unit :=
  command (Call_glBindTexture target texture) (set (TextureBinding target) texture).

Definition glBindBuffer (target buffer : Z) : M unit :=
  command (Call_glBindBuffer target buffer) (set (BufferBinding target) buffer).

(** Binds the indexed binding point and, as the call is documented to, the
    generic binding point of the target as well. *)
Definition glBindBufferBase (target index buffer : Z) : M unit :=
  command (Call_glBindBufferBase target index buffer)
    (fun c => set (BufferBinding target) buffer
                (set (BufferBaseBinding target index) buffer c)).

Definition glEnable (cap : Z) : M unit :=
  command (Call_glEnable cap) (set (Capability cap) GL_TRUE).

Definition glDisable (cap : Z) : M unit :=
  command (Call_glDisable cap) (set (Capability cap) GL_FALSE).

(** GL_FRAMEBUFFER binds both the draw and the read framebuffer;
    GL_FRAMEBUFFER_BINDING reports the draw framebuffer. *)
Definition glBindFramebuffer (target framebuffer : Z) : M unit :=
  command (Call_glBindFramebuffer target framebuffer)
    (fun c => if target =? GL_FRAMEBUFFER
              then set (FramebufferBinding GL_READ_FRAMEBUFFER) framebuffer
                     (set (FramebufferBinding GL_DRAW_FRAMEBUFFER) framebuffer c)
              else set (FramebufferBinding target) framebuffer c).

Definition glBindRenderbuffer (target renderbuffer : Z) : M unit :=
  command (Call_glBindRenderbuffer target renderbuffer)
    (set (RenderbufferBinding target) renderbuffer).

Definition glFramebufferTexture2D (target attachment textarget texture level : Z) : M unit :=
  command (Call_glFramebufferTexture2D target attachment textarget texture level)
    (fun c => set (AttachmentLevel target attachment) level
                (set (AttachmentObject target attachment) texture
                   (set (AttachmentTarget target attachment) textarget c))).

Definition glFramebufferRenderbuffer
    (target attachment renderbuffertarget renderbuffer : Z) : M unit :=
  command (Call_glFramebufferRenderbuffer target attachment renderbuffertarget renderbuffer)
    (fun c => set (AttachmentLevel target attachment) 0
                (set (AttachmentObject target attachment) renderbuffer
                   (set (AttachmentTarget target attachment) renderbuffertarget c))).

Definition glViewport (x y width height : Z) : M unit :=
  command (Call_glViewport x y width height)
    (set_components Viewport 0 [x; y; width; height]).

Definition glClearColor (red green blue alpha : Z) : M unit :=
  command (Call_glClearColor red green blue alpha)
    (set_components ClearColor 0 [red; green; blue; alpha]).

Definition glBlendFunc (sfactor dfactor : Z) : M unit :=
  command (Call_glBlendFunc sfactor dfactor)
    (fun c => set BlendDst dfactor (set BlendSrc sfactor c)).

Definition glBlendEquation (mode : Z) : M unit :=
  command (Call_glBlendEquation mode) (set BlendEquation mode).

Definition glCullFace (mode : Z) : M unit :=
  command (Call_glCullFace mode) (set CullFaceMode mode).

Definition glFrontFace (mode : Z) : M unit :=
  command (Call_glFrontFace mode) (set FrontFace mode).

(** glTexParameteri and glTexParameterf; [param] is the value as the entry
    point receives it, a GLint or a GLfloat. *)
Definition glTexParameter (ext : texparam_scalar_ext) (target pname param : Z) : M unit :=
  command (Call_glTexParameter ext target pname param)
    (set (TexParameter target pname 0) param).

(** The number of values a vector entry point reads for a parameter: four
    for a colour or a swizzle, one otherwise. *)
Definition texparam_count (pname : Z) : nat :=
  if pname =? GL_TEXTURE_BORDER_COLOR then 4%nat
  else if pname =? GL_TEXTURE_SWIZZLE_RGBA then 4%nat
  else 1%nat.

(** glUniform* write the uniform at [location] of the program that is
    current when the call is made.  The header passes count 1 and GL_FALSE
    only: one matrix of 16 floats, stored as given. *)
Definition glUniformMatrix4fv (location count transpose : Z) (value : list Z) : M unit :=
  fun c =>
    (tt,
     set_components (UniformValue (get c CurrentProgram) location) 0 (firstn 16 value) c,
     [Call_glUniformMatrix4fv location count transpose value]).

Definition glUniform1f (location v0 : Z) : M unit :=
  fun c =>
    (tt,
     set (UniformValue (get c CurrentProgram) location 0) v0 c,
     [Call_glUniform1f location v0]).

Definition glDrawArrays (mode first count : Z) : M unit :=
  command (Call_glDrawArrays mode first count) (fun c => c).

(** ** C statements

    How a statement ends.  [Throw] is a C++ exception passing through,
    [Diverge] a body or loop that does not end within the steps granted. *)
Inductive outcome : Type := Normal | Break | Continue | Return | Throw | Diverge.

(** [for (T l = init; cond; step)]: the locals [l] are declared by the
    header; the condition of every header here is free of side effects. *)
Record for_header (L : Type) : Type := mk_for {
  init : M L;
  cond : L -> bool;
  step : L -> M L
}.
Arguments mk_for {L} _ _ _.
Arguments init {L} _.
Arguments cond {L} _.
Arguments step {L} _.

(** The iterations of a [for] statement: test, body, step.  [break] leaves
    the loop without the step; [continue] goes to the step; [return] and a
    throw leave the loop and the enclosing statements without the step. *)
Fixpoint loop {L : Type} (fuel : nat) (h : for_header L) (body : L -> M outcome)
    (l : L) : M outcome :=
  match fuel with
  | O => ret Diverge
  | S fuel' =>
      if cond h l then
        o <- body l;;
        match o with
        | Normal | Continue => l' <- step h l;; loop fuel' h body l'
        | Break => ret Normal
        | Return => ret Return
        | Throw => ret Throw
        | Diverge => ret Diverge
        end
      else ret Normal
  end.

Definition exec_for {L : Type} (fuel : nat) (h : for_header L) (body : L -> M outcome)
    : M outcome :=
  l <- init h;; loop fuel h body l.

(** A scope macro followed by a statement that does not name the macro's
    locals. *)
Definition scoped {L : Type} (fuel : nat) (h : for_header L) (body : M outcome)
    : M outcome :=
  exec_for fuel h (fun _ => body).

(** [i += 1] on a 32-bit counter.  The headers that declare the counter as
    a GLfloat give it the values 0 and 1 only, which are exact there too. *)
Definition incr (i : Z) : Z := (i + 1) mod 2 ^ 32.

(** A GLboolean stored through a GLboolean pointer to a GLint [x]: the byte
    at the lowest address of [x] is replaced (its low-order byte on a
    little-endian target); the three other bytes keep what they held. *)
Definition store_GLboolean (x b : Z) : Z := (x / 256) * 256 + b mod 256.

(** *** Conversions between int and float

    [typeof(val)], the type line 228 gives its locals, is the type of the
    expression written as [val]: an integer type of 32 bits or float (an
    expression of another type, a double constant for one, is not
    modelled).  An argument of the other type is converted by value where a
    call takes it, while a query stores the 32 bits of its answer into the
    local as they are. *)
Inductive val_type : Type := type_int | type_float.

Definition val_type_eqb (a b : val_type) : bool :=
  match a, b with
  | type_int, type_int | type_float, type_float => true
  | _, _ => false
  end.

(** The number a 32-bit pattern stands for as a signed int. *)
Definition int_value (p : Z) : Z :=
  let u := p mod 2 ^ 32 in
  if u <? 2 ^ 31 then u else u - 2 ^ 32.

(** int to float: the nearest float, ties to the even significand; both
    sides as 32-bit patterns (sign, 8 bits of exponent, 23 of fraction). *)
Definition float_of_int (p : Z) : Z :=
  let v := int_value p in
  if v =? 0 then 0
  else
    let sign := if v <? 0 then 2 ^ 31 else 0 in
    let a := Z.abs v in
    let e := Z.log2 a in
    let significand :=
      if e <=? 23 then a * 2 ^ (23 - e)
      else
        let q := a / 2 ^ (e - 23) in
        let r := a mod 2 ^ (e - 23) in
        let half := 2 ^ (e - 24) in
        if ((half <? r) || ((r =? half) && Z.odd q))%bool then q + 1 else q in
    sign + (e + 127) * 2 ^ 23 + (significand - 2 ^ 23).

(** float to int: the fraction is discarded.  C leaves the conversion
    undefined when the result does not fit an int; the pattern given here is
    then the low 32 bits. *)
Definition int_of_float (b : Z) : Z :=
  let u := b mod 2 ^ 32 in
  let e := (u / 2 ^ 23) mod 256 in
  let significand := 2 ^ 23 + u mod 2 ^ 23 in
  if e <? 127 then 0
  else
    let magnitude :=
      if e <? 150 then significand / 2 ^ (150 - e) else significand * 2 ^ (e - 150) in
    (if u <? 2 ^ 31 then magnitude else - magnitude) mod 2 ^ 32.

Definition convert (from to : val_type) (v : Z) : Z :=
  match from, to with
  | type_int, type_float => float_of_int v
  | type_float, type_int => int_of_float v
  | _, _ => v
  end.

(** The type of the value parameter of glTexParameteri and glTexParameterf. *)
Definition param_type (ext : texparam_scalar_ext) : val_type :=
  match ext with
  | ext_i => type_int
  | ext_f => type_float
  end.

(** ** Helper macros (lines 244-249) *)

Definition TOKEN_PASTE (a b : string) : string := (a ++ b)%string.
Definition CONCAT (a b : string) : string := TOKEN_PASTE a b.

(** [__LINE__] expands to the decimal constant of the current line. *)
Definition LINE_token (line : nat) : string :=
  NilEmpty.string_of_uint (Nat.to_uint line).

Definition UQ (name : string) (line : nat) : string := CONCAT name (LINE_token line).

(** [for (int UQ(var) = (begin, 0); (UQ(var) == 0); (UQ(var) += 1), end)] *)
Definition scope_begin_end_var (begin end_ : M unit) : for_header Z :=
  mk_for (begin;; ret 0)
         (fun var => var =? 0)
         (fun var => let var := incr var in end_;; ret var).

(** Lines 251-266. *)
Definition _scope_gl_map_texture_target_to_binding (target : Z) : Z :=
  if target =? GL_TEXTURE_1D then GL_TEXTURE_BINDING_1D
  else if target =? GL_TEXTURE_2D then GL_TEXTURE_BINDING_2D
  else if target =? GL_TEXTURE_3D then GL_TEXTURE_BINDING_3D
  else if target =? GL_TEXTURE_1D_ARRAY then GL_TEXTURE_BINDING_1D_ARRAY
  else if target =? GL_TEXTURE_2D_ARRAY then GL_TEXTURE_BINDING_2D_ARRAY
  else if target =? GL_TEXTURE_RECTANGLE then GL_TEXTURE_BINDING_RECTANGLE
  else if target =? GL_TEXTURE_CUBE_MAP then GL_TEXTURE_BINDING_CUBE_MAP
  else if target =? GL_TEXTURE_CUBE_MAP_ARRAY then GL_TEXTURE_BINDING_CUBE_MAP_ARRAY
  else if target =? GL_TEXTURE_BUFFER then GL_TEXTURE_BINDING_BUFFER
  else if target =? GL_TEXTURE_2D_MULTISAMPLE then GL_TEXTURE_BINDING_2D_MULTISAMPLE
  else if target =? GL_TEXTURE_2D_MULTISAMPLE_ARRAY
       then GL_TEXTURE_BINDING_2D_MULTISAMPLE_ARRAY
  else 0.

(** ** The scope macros (lines 107-241)

    [stack] is what the cells of the uninitialised locals hold before the
    initialiser runs.  [vbo], [old_vbo_LINE] and [glFrontface] are the
    identifiers that [_restore_glBindBuffer] and [_unset_glFrontFace] name
    without a declaration of the header's own: they resolve to whatever the
    translation unit that uses the macro declares under these names.
    [read_through_null] is what a vector entry point has done by the time it
    returns from reading its values through the null pointer, which nothing
    defines; the properties that speak of what follows a scope leave the
    scopes that make this call out ([exit_defined]). *)
Section Macros.

Variable stack : nat -> Z.
Variables vbo old_vbo_LINE : Z.
Variable glFrontface : Z -> M unit.
Variable read_through_null : texparam_vector_ext -> Z -> Z -> M unit.

(** glTexParameterfv, glTexParameteriv, glTexParameterIiv and
    glTexParameterIuiv: the values of the parameter are read from the array
    [params] points to. *)
Definition glTexParameterv (ext : texparam_vector_ext) (target pname : Z) (params : pointer)
    : M unit :=
  match params with
  | to_array data =>
      command (Call_glTexParameterv ext target pname params)
        (set_components (TexParameter target pname) 0 (firstn (texparam_count pname) data))
  | NULL =>
      fun c =>
        let '(u, c', t) := read_through_null ext target pname c in
        (u, c', Call_glTexParameterv ext target pname NULL :: t)
  end.

Definition _restore_glUseProgram (id : Z) : for_header (Z * Z) :=
  mk_for (prog <- glGetIntegerv1 GL_CURRENT_PROGRAM (stack 0%nat);;
          glUseProgram id;;
          ret (prog, 0))
         (fun '(prog, i) => i =? 0)
         (fun '(prog, i) => let i := incr i in glUseProgram prog;; ret (prog, i)).
Definition _unset_glUseProgram (id : Z) : for_header Z :=
  scope_begin_end_var (glUseProgram id) (glUseProgram 0).

Definition _restore_glBindVertexArray (vao : Z) : for_header (Z * Z) :=
  mk_for (old_vao <- glGetIntegerv1 GL_VERTEX_ARRAY_BINDING (stack 0%nat);;
          glBindVertexArray vao;;
          ret (old_vao, 0))
         (fun '(old_vao, i) => i =? 0)
         (fun '(old_vao, i) => let i := incr i in glBindVertexArray old_vao;; ret (old_vao, i)).
Definition _unset_glBindVertexArray (vao : Z) : for_header Z :=
  scope_begin_end_var (glBindVertexArray vao) (glBindVertexArray 0).

Definition _restore_glBindTexture (target texture : Z) : for_header (Z * Z) :=
  mk_for (old_tex <- glGetIntegerv1 (_scope_gl_map_texture_target_to_binding target)
                                    (stack 0%nat);;
          glBindTexture target texture;;
          ret (old_tex, 0))
         (fun '(old_tex, i) => i =? 0)
         (fun '(old_tex, i) => let i := incr i in glBindTexture target old_tex;; ret (old_tex, i)).
Definition _unset_glBindTexture (target texture : Z) : for_header Z :=
  scope_begin_end_var (glBindTexture target texture) (glBindTexture target 0).

Definition _restore_glBindTexture2D (tex_id : Z) : for_header (Z * Z) :=
  mk_for (old_tex <- glGetIntegerv1 GL_TEXTURE_BINDING_2D (stack 0%nat);;
          glBindTexture GL_TEXTURE_2D tex_id;;
          ret (old_tex, 0))
         (fun '(old_tex, i) => i =? 0)
         (fun '(old_tex, i) =>
            let i := incr i in glBindTexture GL_TEXTURE_2D old_tex;; ret (old_tex, i)).
Definition _unset_glBindTexture2D (tex_id : Z) : for_header Z :=
  scope_begin_end_var (glBindTexture GL_TEXTURE_2D tex_id) (glBindTexture GL_TEXTURE_2D 0).

(** Lines 127-129 declare [UQ(old_buf)] and never read it; the parameter
    [buffer] is not used; the calls name [vbo] and [UQ(old_vbo)]. *)
Definition _restore_glBindBuffer (target buffer : Z) : for_header (Z * Z) :=
  mk_for (old_buf <- glGetIntegerv1 GL_BUFFER_BINDING (stack 0%nat);;
          glBindBuffer target vbo;;
          ret (old_buf, 0))
         (fun '(old_buf, i) => i =? 0)
         (fun '(old_buf, i) =>
            let i := incr i in glBindBuffer target old_vbo_LINE;; ret (old_buf, i)).
Definition _unset_glBindBuffer (target buffer : Z) : for_header Z :=
  scope_begin_end_var (glBindBuffer target buffer) (glBindBuffer target 0).

Definition _restore_glBindArrayBuffer (vbo : Z) : for_header (Z * Z) :=
  mk_for (old_vbo <- glGetIntegerv1 GL_ARRAY_BUFFER_BINDING (stack 0%nat);;
          glBindBuffer GL_ARRAY_BUFFER vbo;;
          ret (old_vbo, 0))
         (fun '(old_vbo, i) => i =? 0)
         (fun '(old_vbo, i) =>
            let i := incr i in glBindBuffer GL_ARRAY_BUFFER old_vbo;; ret (old_vbo, i)).
Definition _unset_glBindArrayBuffer (vbo : Z) : for_header Z :=
  scope_begin_end_var (glBindBuffer GL_ARRAY_BUFFER vbo) (glBindBuffer GL_ARRAY_BUFFER 0).

(** The GLboolean is written into the first byte of the GLint [old_flag]. *)
Definition _restore_glEnable (enumval : Z) : for_header (Z * Z) :=
  mk_for (b <- glGetBooleanv enumval;;
          let old_flag := store_GLboolean (stack 0%nat) b in
          glEnable enumval;;
          ret (old_flag, 0))
         (fun '(old_flag, i) => i =? 0)
         (fun '(old_flag, i) =>
            let i := incr i in
            (if negb (old_flag =? 0) then glEnable enumval else glDisable enumval);;
            ret (old_flag, i)).
Definition _unset_glEnable (enumval : Z) : for_header Z :=
  scope_begin_end_var (glEnable enumval) (glDisable enumval).

Definition _restore_glDisable (enumval : Z) : for_header (Z * Z) :=
  mk_for (b <- glGetBooleanv enumval;;
          let old_flag := store_GLboolean (stack 0%nat) b in
          glDisable enumval;;
          ret (old_flag, 0))
         (fun '(old_flag, i) => i =? 0)
         (fun '(old_flag, i) =>
            let i := incr i in
            (if negb (old_flag =? 0) then glEnable enumval else glDisable enumval);;
            ret (old_flag, i)).
Definition _unset_glDisable (enumval : Z) : for_header Z :=
  scope_begin_end_var (glDisable enumval) (glEnable enumval).

(** The query name is the bind target itself. *)
Definition _restore_glBindFramebuffer (target fbo : Z) : for_header (Z * Z) :=
  mk_for (old_fbo <- glGetIntegerv1 target (stack 0%nat);;
          glBindFramebuffer target fbo;;
          ret (old_fbo, 0))
         (fun '(old_fbo, i) => i =? 0)
         (fun '(old_fbo, i) =>
            let i := incr i in glBindFramebuffer target old_fbo;; ret (old_fbo, i)).
Definition _unset_glBindFramebuffer (target fbo : Z) : for_header Z :=
  scope_begin_end_var (glBindFramebuffer target fbo) (glBindFramebuffer target 0).

Definition _restore_glBindFBO (fbo : Z) : for_header (Z * Z) :=
  mk_for (old_fbo <- glGetIntegerv1 GL_FRAMEBUFFER_BINDING (stack 0%nat);;
          glBindFramebuffer GL_FRAMEBUFFER fbo;;
          ret (old_fbo, 0))
         (fun '(old_fbo, i) => i =? 0)
         (fun '(old_fbo, i) =>
            let i := incr i in glBindFramebuffer GL_FRAMEBUFFER old_fbo;; ret (old_fbo, i)).
Definition _unset_glBindFBO (fbo : Z) : for_header Z :=
  scope_begin_end_var (glBindFramebuffer GL_FRAMEBUFFER fbo)
                      (glBindFramebuffer GL_FRAMEBUFFER 0).

(** Lines 157-185: the three bindings below do not query; their RESTORE
    form is their RESET form ("does not restore"). *)
Definition _restore_glFramebufferTexture (target attachment textarget texture level : Z)
    : for_header Z :=
  scope_begin_end_var (glFramebufferTexture2D target attachment textarget texture level)
                      (glFramebufferTexture2D target attachment textarget 0 0).
Definition _unset_glFramebufferTexture (target attachment textarget texture level : Z)
    : for_header Z :=
  scope_begin_end_var (glFramebufferTexture2D target attachment textarget texture level)
                      (glFramebufferTexture2D target attachment textarget 0 0).

Definition _restore_glBindRenderbuffer (target renderbuffer : Z) : for_header Z :=
  scope_begin_end_var (glBindRenderbuffer target renderbuffer) (glBindRenderbuffer target 0).
Definition _unset_glBindRenderbuffer (target renderbuffer : Z) : for_header Z :=
  scope_begin_end_var (glBindRenderbuffer target renderbuffer) (glBindRenderbuffer target 0).

Definition _restore_glFramebufferRenderbuffer (fbo attachment renderbuffer : Z)
    : for_header Z :=
  scope_begin_end_var
    (glFramebufferRenderbuffer GL_FRAMEBUFFER attachment GL_RENDERBUFFER renderbuffer)
    (glFramebufferRenderbuffer GL_FRAMEBUFFER attachment GL_RENDERBUFFER 0).
Definition _unset_glFramebufferRenderbuffer (fbo attachment renderbuffer : Z)
    : for_header Z :=
  scope_begin_end_var
    (glFramebufferRenderbuffer GL_FRAMEBUFFER attachment GL_RENDERBUFFER renderbuffer)
    (glFramebufferRenderbuffer GL_FRAMEBUFFER attachment GL_RENDERBUFFER 0).

Definition _restore_glViewport (x y w h : Z) : for_header (list Z * Z) :=
  mk_for (view <- glGetIntegerv GL_VIEWPORT
                    [stack 0%nat; stack 1%nat; stack 2%nat; stack 3%nat];;
          glViewport x y w h;;
          ret (view, 0))
         (fun '(view, i) => i =? 0)
         (fun '(view, i) =>
            let i := incr i in
            glViewport (nth 0 view 0) (nth 1 view 0) (nth 2 view 0) (nth 3 view 0);;
            ret (view, i)).
Definition _unset_glViewport (x y w h : Z) : for_header Z :=
  scope_begin_end_var (glViewport x y w h) (glViewport 0 0 0 0).

Definition _restore_glClearColor (r g b a : Z) : for_header (list Z * Z) :=
  mk_for (clear <- glGetFloatv GL_COLOR_CLEAR_VALUE
                     [stack 0%nat; stack 1%nat; stack 2%nat; stack 3%nat];;
          glClearColor r g b a;;
          ret (clear, 0))
         (fun '(clear, i) => i =? 0)
         (fun '(clear, i) =>
            let i := incr i in
            glClearColor (nth 0 clear 0) (nth 1 clear 0) (nth 2 clear 0) (nth 3 clear 0);;
            ret (clear, i)).
Definition _unset_glClearColor (r g b a : Z) : for_header Z :=
  scope_begin_end_var (glClearColor r g b a) (glClearColor 0 0 0 0).

Definition _restore_glBlendFunc (src dst : Z) : for_header (Z * Z * Z) :=
  mk_for (s <- glGetIntegerv1 GL_BLEND_SRC (stack 0%nat);;
          d <- glGetIntegerv1 GL_BLEND_DST (stack 1%nat);;
          glBlendFunc src dst;;
          ret (s, d, 0))
         (fun '(s, d, i) => i =? 0)
         (fun '(s, d, i) => let i := incr i in glBlendFunc s d;; ret (s, d, i)).
Definition _unset_glBlendFunc (src dst : Z) : for_header Z :=
  scope_begin_end_var (glBlendFunc src dst) (glBlendFunc 0 0).

Definition _restore_glBlendEquation (eq : Z) : for_header (Z * Z) :=
  mk_for (e <- glGetIntegerv1 GL_BLEND_EQUATION (stack 0%nat);;
          glBlendEquation eq;;
          ret (e, 0))
         (fun '(e, i) => i =? 0)
         (fun '(e, i) => let i := incr i in glBlendEquation e;; ret (e, i)).
Definition _unset_glBlendEquation (eq : Z) : for_header Z :=
  scope_begin_end_var (glBlendEquation eq) (glBlendEquation 0).

Definition _restore_glCullFace (mode : Z) : for_header (Z * Z) :=
  mk_for (m <- glGetIntegerv1 GL_CULL_FACE_MODE (stack 0%nat);;
          glCullFace mode;;
          ret (m, 0))
         (fun '(m, i) => i =? 0)
         (fun '(m, i) => let i := incr i in glCullFace m;; ret (m, i)).
Definition _unset_glCullFace (mode : Z) : for_header Z :=
  scope_begin_end_var (glCullFace mode) (glCullFace 0).

Definition _restore_glFrontFace (orient : Z) : for_header (Z * Z) :=
  mk_for (fo <- glGetIntegerv1 GL_FRONT_FACE (stack 0%nat);;
          glFrontFace orient;;
          ret (fo, 0))
         (fun '(fo, i) => i =? 0)
         (fun '(fo, i) => let i := incr i in glFrontFace fo;; ret (fo, i)).
(** Line 217 enters through [glFrontface], lower-case f. *)
Definition _unset_glFrontFace (orient : Z) : for_header Z :=
  scope_begin_end_var (glFrontface orient) (glFrontFace 0).

Definition _restore_glBindSSBO (ssbo binding : Z) : for_header (Z * Z) :=
  mk_for (old_ssbo <- glGetIntegerv1 GL_SHADER_STORAGE_BUFFER_BINDING (stack 0%nat);;
          glBindBuffer GL_SHADER_STORAGE_BUFFER ssbo;;
          glBindBufferBase GL_SHADER_STORAGE_BUFFER binding ssbo;;
          ret (old_ssbo, 0))
         (fun '(old_ssbo, i) => i =? 0)
         (fun '(old_ssbo, i) =>
            let i := incr i in
            glBindBufferBase GL_SHADER_STORAGE_BUFFER binding old_ssbo;;
            glBindBuffer GL_SHADER_STORAGE_BUFFER old_ssbo;;
            ret (old_ssbo, i)).
Definition _unset_glBindSSBO (ssbo binding : Z) : for_header Z :=
  scope_begin_end_var
    (glBindBuffer GL_SHADER_STORAGE_BUFFER ssbo;;
     glBindBufferBase GL_SHADER_STORAGE_BUFFER binding ssbo)
    (glBindBufferBase GL_SHADER_STORAGE_BUFFER binding 0;;
     glBindBuffer GL_SHADER_STORAGE_BUFFER 0).

(** Lines 225-230.  [ext] is pasted into the names of the calls.

    Line 228 pastes [ext] and [v] into the name of the query: with the
    scalar suffixes [i] and [f] that is glGetTexParameteriv and
    glGetTexParameterfv; with a vector suffix the pasted name
    (glGetTexParameterfvv and the like) is no OpenGL entry point, and the
    header has no RESTORE form to embed.  The locals have the type of [val],
    [ty]: the query stores the bits of its answer into [t2d]; [val] and, in
    the step, [t2d] are converted from [ty] to the type of the parameter of
    the entry point where they are passed. *)
Definition _restore_glTex2DParameter (ext : texparam_scalar_ext) (param : Z)
    (ty : val_type) (val : Z) : for_header (Z * Z) :=
  mk_for (t2d <- glGetTexParameterv ext GL_TEXTURE_2D param;;
          glTexParameter ext GL_TEXTURE_2D param (convert ty (param_type ext) val);;
          ret (t2d, 0))
         (fun '(t2d, i) => i =? 0)
         (fun '(t2d, i) =>
            let i := incr i in
            glTexParameter ext GL_TEXTURE_2D param (convert ty (param_type ext) t2d);;
            ret (t2d, i)).

(** The argument [val] of line 230: with a scalar suffix an expression of
    type int or float with its value, with a vector suffix a pointer. *)
Definition texparam_arg (ext : texparam_ext) : Type :=
  match ext with
  | scalar _ => (val_type * Z)%type
  | vector _ => pointer
  end.

(** Line 230 passes the constant 0 on exit: the zero of the parameter's type
    to a scalar entry point, the null pointer to a vector entry point. *)
Definition _unset_glTex2DParameter (ext : texparam_ext) (param : Z)
    : texparam_arg ext -> for_header Z :=
  match ext with
  | scalar e => fun val =>
      scope_begin_end_var
        (glTexParameter e GL_TEXTURE_2D param (convert (fst val) (param_type e) (snd val)))
        (glTexParameter e GL_TEXTURE_2D param (convert type_int (param_type e) 0))
  | vector e => fun val =>
      scope_begin_end_var (glTexParameterv e GL_TEXTURE_2D param val)
                          (glTexParameterv e GL_TEXTURE_2D param NULL)
  end.

(** *** Uniform scopes (lines 234-241): two nested [for] statements, the
    outer one holding the program handle for the inner one. *)
Definition uniform_outer : for_header (Z * Z) :=
  mk_for (prog <- glGetIntegerv1 GL_CURRENT_PROGRAM (stack 0%nat);; ret (prog, 0))
         (fun '(prog, j) => j =? 0)
         (fun '(prog, j) => let j := incr j in ret (prog, j)).

Definition uniformMatrix4fv_inner (prog : Z) (matrix : list Z) (name : string)
    : for_header (list Z * Z) :=
  mk_for (loc <- glGetUniformLocation prog name;;
          mat <- glGetUniformfv prog loc (map stack (seq 1 16));;
          loc' <- glGetUniformLocation prog name;;
          glUniformMatrix4fv loc' 1 GL_FALSE matrix;;
          ret (mat, 0))
         (fun '(mat, i) => i =? 0)
         (fun '(mat, i) =>
            let i := incr i in
            loc <- glGetUniformLocation prog name;;
            glUniformMatrix4fv loc 1 GL_FALSE mat;;
            ret (mat, i)).

Definition uniformfv_inner (prog : Z) (val : Z) (name : string) : for_header (Z * Z) :=
  mk_for (loc <- glGetUniformLocation prog name;;
          data <- glGetUniformfv prog loc [stack 1%nat];;
          let old_val := hd (stack 1%nat) data in
          loc' <- glGetUniformLocation prog name;;
          glUniform1f loc' val;;
          ret (old_val, 0))
         (fun '(old_val, i) => i =? 0)
         (fun '(old_val, i) =>
            let i := incr i in
            loc <- glGetUniformLocation prog name;;
            glUniform1f loc old_val;;
            ret (old_val, i)).

Definition scope_glUniformMatrix4fv (matrix : list Z) (name : string)
    (fuel : nat) (body : M outcome) : M outcome :=
  exec_for fuel uniform_outer
    (fun '(prog, _) => scoped fuel (uniformMatrix4fv_inner prog matrix name) body).

Definition scope_glUniformfv (val : Z) (name : string)
    (fuel : nat) (body : M outcome) : M outcome :=
  exec_for fuel uniform_outer
    (fun '(prog, _) => scoped fuel (uniformfv_inner prog val name) body).

(** *** The public macros (lines 34-56) and the mode switch (lines 58-104)

    [scope_glFramebufferTex2D] (line 54) forwards to
    [_restore_glFramebufferTex2D] or [_unset_glFramebufferTex2D]; the header
    defines neither, so that macro has no expansion to embed.
    [scope_macro] lists the invocations that expand in both modes: for
    [scope_glTex2DParameter] those with a scalar suffix, where [ty] is the
    type of the expression [val]; the invocations with a vector suffix are
    [scope_glTex2DParameter_v] of [scope_use] below. *)
Inductive scope_macro : Type :=
| scope_glUseProgram (id : Z)
| scope_glBindVertexArray (vao : Z)
| scope_glBindTexture (target texture : Z)
| scope_glBindBuffer (target buffer : Z)
| scope_glBindArrayBuffer (vbo : Z)
| scope_glEnable (enumval : Z)
| scope_glDisable (enumval : Z)
| scope_glBindFramebuffer (target fbo : Z)
| scope_glFramebufferTexture (target attachment textarget texture level : Z)
| scope_glBindRenderbuffer (target renderbuffer : Z)
| scope_glFramebufferRenderbuffer (fbo attachment renderbuffer : Z)
| scope_glViewport (x y w h : Z)
| scope_glClearColor (r g b a : Z)
| scope_glBlendFunc (src dst : Z)
| scope_glBlendEquation (eq : Z)
| scope_glCullFace (mode : Z)
| scope_glFrontFace (orient : Z)
| scope_glBindTexture2D (tex_id : Z)
| scope_glBindFBO (fbo : Z)
| scope_glBindSSBO (ssbo binding : Z)
| scope_glTex2DParameter (ext : texparam_scalar_ext) (param : Z) (ty : val_type) (val : Z).

(** [#ifdef SCOPE_GL_RESTORE_STATE]: the mode is fixed when the header is
    compiled. *)
Inductive mode : Type := RESTORE | RESET.

(** A macro of either mode expands to a [for] header; the type of its
    locals depends on the macro. *)
Definition scope_header : Type := {L : Type & for_header L}.
Definition pack {L : Type} (h : for_header L) : scope_header := existT _ L h.

Definition _restore (s : scope_macro) : scope_header :=
  match s with
  | scope_glUseProgram id => pack (_restore_glUseProgram id)
  | scope_glBindVertexArray vao => pack (_restore_glBindVertexArray vao)
  | scope_glBindTexture target texture => pack (_restore_glBindTexture target texture)
  | scope_glBindBuffer target buffer => pack (_restore_glBindBuffer target buffer)
  | scope_glBindArrayBuffer vbo => pack (_restore_glBindArrayBuffer vbo)
  | scope_glEnable enumval => pack (_restore_glEnable enumval)
  | scope_glDisable enumval => pack (_restore_glDisable enumval)
  | scope_glBindFramebuffer target fbo => pack (_restore_glBindFramebuffer target fbo)
  | scope_glFramebufferTexture target attachment textarget texture level =>
      pack (_restore_glFramebufferTexture target attachment textarget texture level)
  | scope_glBindRenderbuffer target renderbuffer =>
      pack (_restore_glBindRenderbuffer target renderbuffer)
  | scope_glFramebufferRenderbuffer fbo attachment renderbuffer =>
      pack (_restore_glFramebufferRenderbuffer fbo attachment renderbuffer)
  | scope_glViewport x y w h => pack (_restore_glViewport x y w h)
  | scope_glClearColor r g b a => pack (_restore_glClearColor r g b a)
  | scope_glBlendFunc src dst => pack (_restore_glBlendFunc src dst)
  | scope_glBlendEquation eq => pack (_restore_glBlendEquation eq)
  | scope_glCullFace mode => pack (_restore_glCullFace mode)
  | scope_glFrontFace orient => pack (_restore_glFrontFace orient)
  | scope_glBindTexture2D tex_id => pack (_restore_glBindTexture2D tex_id)
  | scope_glBindFBO fbo => pack (_restore_glBindFBO fbo)
  | scope_glBindSSBO ssbo binding => pack (_restore_glBindSSBO ssbo binding)
  | scope_glTex2DParameter ext param ty val =>
      pack (_restore_glTex2DParameter ext param ty val)
  end.

Definition _unset (s : scope_macro) : scope_header :=
  match s with
  | scope_glUseProgram id => pack (_unset_glUseProgram id)
  | scope_glBindVertexArray vao => pack (_unset_glBindVertexArray vao)
  | scope_glBindTexture target texture => pack (_unset_glBindTexture target texture)
  | scope_glBindBuffer target buffer => pack (_unset_glBindBuffer target buffer)
  | scope_glBindArrayBuffer vbo => pack (_unset_glBindArrayBuffer vbo)
  | scope_glEnable enumval => pack (_unset_glEnable enumval)
  | scope_glDisable enumval => pack (_unset_glDisable enumval)
  | scope_glBindFramebuffer target fbo => pack (_unset_glBindFramebuffer target fbo)
  | scope_glFramebufferTexture target attachment textarget texture level =>
      pack (_unset_glFramebufferTexture target attachment textarget texture level)
  | scope_glBindRenderbuffer target renderbuffer =>
      pack (_unset_glBindRenderbuffer target renderbuffer)
  | scope_glFramebufferRenderbuffer fbo attachment renderbuffer =>
      pack (_unset_glFramebufferRenderbuffer fbo attachment renderbuffer)
  | scope_glViewport x y w h => pack (_unset_glViewport x y w h)
  | scope_glClearColor r g b a => pack (_unset_glClearColor r g b a)
  | scope_glBlendFunc src dst => pack (_unset_glBlendFunc src dst)
  | scope_glBlendEquation eq => pack (_unset_glBlendEquation eq)
  | scope_glCullFace mode => pack (_unset_glCullFace mode)
  | scope_glFrontFace orient => pack (_unset_glFrontFace orient)
  | scope_glBindTexture2D tex_id => pack (_unset_glBindTexture2D tex_id)
  | scope_glBindFBO fbo => pack (_unset_glBindFBO fbo)
  | scope_glBindSSBO ssbo binding => pack (_unset_glBindSSBO ssbo binding)
  | scope_glTex2DParameter ext param ty val =>
      pack (_unset_glTex2DParameter (scalar ext) param (ty, val))
  end.

Definition _scope (m : mode) (s : scope_macro) : scope_header :=
  match m with
  | RESTORE => _restore s
  | RESET => _unset s
  end.

End Macros.

(** Every scope a translation unit can open, by the mode the header is
    compiled in: the mode-switched macros, [scope_glTex2DParameter] with a
    vector suffix (RESET mode only, see above) and the two uniform scopes,
    which are the same in both modes. *)
Inductive scope_use : mode -> Type :=
| use_macro {m : mode} (s : scope_macro) : scope_use m
| scope_glTex2DParameter_v (ext : texparam_vector_ext) (param : Z) (val : pointer)
    : scope_use RESET
| use_glUniformMatrix4fv {m : mode} (matrix : list Z) (name : string) : scope_use m
| use_glUniformfv {m : mode} (val : Z) (name : string) : scope_use m.

(** The statement [macro(args) body]. *)
Definition stmt (h : scope_header) (fuel : nat) (body : M outcome) : M outcome :=
  scoped fuel (projT2 h) body.

(** ** One pass through a scope

    [guarded enter exit body]: run [enter], run [body] once in the context
    [enter] leaves, and run [exit] on what [enter] captured when the body
    falls through or executes [continue]; a [break] ends the statement and a
    [return] or throw leaves it, both without [exit]. *)
Definition falls_through (o : outcome) : bool :=
  match o with
  | Normal | Continue => true
  | Break | Return | Throw | Diverge => false
  end.

Definition guarded {L X : Type} (enter : M L) (exit : L -> M X) (body : M outcome)
    : M outcome :=
  fun c =>
    let '(l, c1, t1) := enter c in
    let '(o, c2, t2) := body c1 in
    match o with
    | Normal | Continue => let '(_, c3, t3) := exit l c2 in (Normal, c3, t1 ++ t2 ++ t3)
    | Break => (Normal, c2, t1 ++ t2)
    | Return => (Return, c2, t1 ++ t2)
    | Throw => (Throw, c2, t1 ++ t2)
    | Diverge => (Diverge, c2, t1 ++ t2)
    end.

(** The condition holds once the initialiser has run and fails once the step
    has run. *)
Definition single_pass {L : Type} (h : for_header L) : Prop :=
  (forall c, cond h (result_of (init h c)) = true) /\
  (forall l c, cond h l = true -> cond h (result_of (step h l c)) = false).

(** The enter and exit actions of a uniform scope: the outer header fetches
    the program handle, the inner header does the rest with that handle. *)
Definition uniform_enter {L : Type} (stack : nat -> Z) (inner : Z -> for_header L)
    : M (Z * L) :=
  prog <- glGetIntegerv1 GL_CURRENT_PROGRAM (stack 0%nat);;
  l <- init (inner prog);;
  ret (prog, l).

Definition uniform_exit {L : Type} (inner : Z -> for_header L) : Z * L -> M L :=
  fun '(prog, l) => step (inner prog) l.

(** The context in which the body of [macro(args) body] starts. *)
Definition entered (h : scope_header) (c : GLctx) : GLctx :=
  ctx_of (init (projT2 h) c).

(** A capability is enabled when its slot is not GL_FALSE. *)
Definition enabled (c : GLctx) (cap : Z) : bool :=
  negb (get c (Capability cap) =? 0).

(** *** The slots of a macro

    [slots_of s]: the slots that the arguments of [s] identify, which are the
    slots its set calls address. *)
Definition slots_of (s : scope_macro) : list slot :=
  match s with
  | scope_glUseProgram _ => [CurrentProgram]
  | scope_glBindVertexArray _ => [VertexArrayBinding]
  | scope_glBindTexture target _ => [TextureBinding target]
  | scope_glBindBuffer target _ => [BufferBinding target]
  | scope_glBindArrayBuffer _ => [BufferBinding GL_ARRAY_BUFFER]
  | scope_glEnable enumval => [Capability enumval]
  | scope_glDisable enumval => [Capability enumval]
  | scope_glBindFramebuffer target _ =>
      if target =? GL_FRAMEBUFFER
      then [FramebufferBinding GL_DRAW_FRAMEBUFFER; FramebufferBinding GL_READ_FRAMEBUFFER]
      else [FramebufferBinding target]
  | scope_glFramebufferTexture target attachment _ _ _ =>
      [AttachmentTarget target attachment; AttachmentObject target attachment;
       AttachmentLevel target attachment]
  | scope_glBindRenderbuffer target _ => [RenderbufferBinding target]
  | scope_glFramebufferRenderbuffer _ attachment _ =>
      [AttachmentTarget GL_FRAMEBUFFER attachment; AttachmentObject GL_FRAMEBUFFER attachment;
       AttachmentLevel GL_FRAMEBUFFER attachment]
  | scope_glViewport _ _ _ _ => [Viewport 0; Viewport 1; Viewport 2; Viewport 3]
  | scope_glClearColor _ _ _ _ => [ClearColor 0; ClearColor 1; ClearColor 2; ClearColor 3]
  | scope_glBlendFunc _ _ => [BlendSrc; BlendDst]
  | scope_glBlendEquation _ => [BlendEquation]
  | scope_glCullFace _ => [CullFaceMode]
  | scope_glFrontFace _ => [FrontFace]
  | scope_glBindTexture2D _ => [TextureBinding GL_TEXTURE_2D]
  | scope_glBindFBO _ =>
      [FramebufferBinding GL_DRAW_FRAMEBUFFER; FramebufferBinding GL_READ_FRAMEBUFFER]
  | scope_glBindSSBO _ binding =>
      [BufferBinding GL_SHADER_STORAGE_BUFFER;
       BufferBaseBinding GL_SHADER_STORAGE_BUFFER binding]
  | scope_glTex2DParameter _ param _ _ => [TexParameter GL_TEXTURE_2D param 0]
  end.

(** The slots a call writes.  The glUniform* calls address their slot
    through the current program and are not calls of the mode-switched
    macros. *)
Definition written (e : gl_call) : list slot :=
  match e with
  | Call_glUseProgram _ => [CurrentProgram]
  | Call_glBindVertexArray _ => [VertexArrayBinding]
  | Call_glBindTexture target _ => [TextureBinding target]
  | Call_glBindBuffer target _ => [BufferBinding target]
  | Call_glBindBufferBase target index _ =>
      [BufferBaseBinding target index; BufferBinding target]
  | Call_glEnable cap => [Capability cap]
  | Call_glDisable cap => [Capability cap]
  | Call_glBindFramebuffer target _ =>
      if target =? GL_FRAMEBUFFER
      then [FramebufferBinding GL_DRAW_FRAMEBUFFER; FramebufferBinding GL_READ_FRAMEBUFFER]
      else [FramebufferBinding target]
  | Call_glFramebufferTexture2D target attachment _ _ _ =>
      [AttachmentTarget target attachment; AttachmentObject target attachment;
       AttachmentLevel target attachment]
  | Call_glBindRenderbuffer target _ => [RenderbufferBinding target]
  | Call_glFramebufferRenderbuffer target attachment _ _ =>
      [AttachmentTarget target attachment; AttachmentObject target attachment;
       AttachmentLevel target attachment]
  | Call_glViewport _ _ _ _ => [Viewport 0; Viewport 1; Viewport 2; Viewport 3]
  | Call_glClearColor _ _ _ _ => [ClearColor 0; ClearColor 1; ClearColor 2; ClearColor 3]
  | Call_glBlendFunc _ _ => [BlendSrc; BlendDst]
  | Call_glBlendEquation _ => [BlendEquation]
  | Call_glCullFace _ => [CullFaceMode]
  | Call_glFrontFace _ => [FrontFace]
  | Call_glTexParameter _ target pname _ => [TexParameter target pname 0]
  | Call_glTexParameterv _ target pname _ =>
      map (TexParameter target pname) (seq 0 (texparam_count pname))
  | Call_glGetIntegerv _ | Call_glGetBooleanv _ | Call_glGetFloatv _
  | Call_glGetTexParameter _ _ _ | Call_glGetUniformLocation _ _
  | Call_glGetUniformfv _ _ | Call_glUniformMatrix4fv _ _ _ _
  | Call_glUniform1f _ _ | Call_glDrawArrays _ _ _ => []
  end.

(** What the frame property asks of the function the translation unit
    declares as [glFrontface]: it behaves towards the other slots as
    [glFrontFace] does. *)
Definition frontface_like (f : Z -> M unit) : Prop :=
  forall orient c,
    (forall sl, sl <> FrontFace -> get (ctx_of (f orient c)) sl = get c sl) /\
    Forall (fun e => incl (written e) [FrontFace]) (log_of (f orient c)).

(** RESTORE mode: the slots whose value at entry the header reads back and
    writes again in its step.  The three bindings of lines 157-185 detach
    instead; [_restore_glBindBuffer] and [_restore_glBindFramebuffer] pass
    glGetIntegerv a value that is not a query name; the capability macros
    are treated apart, through [restored_flag]; [_restore_glTex2DParameter]
    converts what it read back when [val] has another type than the parameter
    of the entry point. *)
Definition restored_slots (s : scope_macro) : list slot :=
  match s with
  | scope_glUseProgram _ => [CurrentProgram]
  | scope_glBindVertexArray _ => [VertexArrayBinding]
  | scope_glBindTexture target _ =>
      if _scope_gl_map_texture_target_to_binding target =? 0
      then [] else [TextureBinding target]
  | scope_glBindArrayBuffer _ => [BufferBinding GL_ARRAY_BUFFER]
  | scope_glViewport _ _ _ _ => [Viewport 0; Viewport 1; Viewport 2; Viewport 3]
  | scope_glClearColor _ _ _ _ => [ClearColor 0; ClearColor 1; ClearColor 2; ClearColor 3]
  | scope_glBlendFunc _ _ => [BlendSrc; BlendDst]
  | scope_glBlendEquation _ => [BlendEquation]
  | scope_glCullFace _ => [CullFaceMode]
  | scope_glFrontFace _ => [FrontFace]
  | scope_glBindTexture2D _ => [TextureBinding GL_TEXTURE_2D]
  | scope_glBindFBO _ => [FramebufferBinding GL_DRAW_FRAMEBUFFER]
  | scope_glBindSSBO _ _ => [BufferBinding GL_SHADER_STORAGE_BUFFER]
  | scope_glTex2DParameter ext param ty _ =>
      if val_type_eqb ty (param_type ext) then [TexParameter GL_TEXTURE_2D param 0] else []
  | scope_glBindBuffer _ _ | scope_glBindFramebuffer _ _
  | scope_glEnable _ | scope_glDisable _
  | scope_glFramebufferTexture _ _ _ _ _ | scope_glBindRenderbuffer _ _
  | scope_glFramebufferRenderbuffer _ _ _ => []
  end.

Definition restored_flag (s : scope_macro) : option Z :=
  match s with
  | scope_glEnable enumval | scope_glDisable enumval => Some enumval
  | _ => None
  end.

(** RESTORE mode, lines 157-185: the slots that are set to zero on exit. *)
Definition detached_slots (s : scope_macro) : list slot :=
  match s with
  | scope_glFramebufferTexture target attachment _ _ _ =>
      [AttachmentObject target attachment; AttachmentLevel target attachment]
  | scope_glBindRenderbuffer target _ => [RenderbufferBinding target]
  | scope_glFramebufferRenderbuffer _ attachment _ =>
      [AttachmentObject GL_FRAMEBUFFER attachment; AttachmentLevel GL_FRAMEBUFFER attachment]
  | _ => []
  end.

(** RESET mode: the slots that receive the fixed value of the macro on exit
    (every slot of the macro but the kind of object of an attachment), and
    that value. *)
Definition is_attachment_target (sl : slot) : bool :=
  match sl with
  | AttachmentTarget _ _ => true
  | _ => false
  end.

Definition reset_slots (s : scope_macro) : list slot :=
  filter (fun sl => negb (is_attachment_target sl)) (slots_of s).

Definition reset_value (s : scope_macro) : Z :=
  match s with
  | scope_glDisable _ => GL_TRUE
  | _ => 0
  end.

(** *** Scopes as pairs of actions

    What one pass through a scope consists of: the action that runs before
    the body, with what it leaves in the locals, and the action that runs
    after the body on those locals. *)
Record scope_actions : Type := mk_actions {
  locals : Type;
  left_locals : Type;
  enter : M locals;
  leave : locals -> M left_locals
}.

Definition header_actions (h : scope_header) : scope_actions :=
  mk_actions (projT1 h) (projT1 h) (init (projT2 h)) (step (projT2 h)).

Section Scopes.

Variable stack : nat -> Z.
Variables vbo old_vbo_LINE : Z.
Variable glFrontface : Z -> M unit.
Variable read_through_null : texparam_vector_ext -> Z -> Z -> M unit.

(** The statement [scope body] for each scope of [scope_use]. *)
Definition run {m : mode} (u : scope_use m) (fuel : nat) (body : M outcome) : M outcome :=
  match u with
  | @use_macro m' s =>
      stmt (_scope stack vbo old_vbo_LINE glFrontface read_through_null m' s) fuel body
  | scope_glTex2DParameter_v ext param val =>
      stmt (pack (_unset_glTex2DParameter read_through_null (vector ext) param val)) fuel body
  | use_glUniformMatrix4fv matrix name => scope_glUniformMatrix4fv stack matrix name fuel body
  | use_glUniformfv val name => scope_glUniformfv stack val name fuel body
  end.

Definition actions {m : mode} (u : scope_use m) : scope_actions :=
  match u with
  | @use_macro m' s =>
      header_actions (_scope stack vbo old_vbo_LINE glFrontface read_through_null m' s)
  | scope_glTex2DParameter_v ext param val =>
      header_actions (pack (_unset_glTex2DParameter read_through_null (vector ext) param val))
  | use_glUniformMatrix4fv matrix name =>
      mk_actions _ _
        (uniform_enter stack (fun prog => uniformMatrix4fv_inner stack prog matrix name))
        (uniform_exit (fun prog => uniformMatrix4fv_inner stack prog matrix name))
  | use_glUniformfv val name =>
      mk_actions _ _
        (uniform_enter stack (fun prog => uniformfv_inner stack prog val name))
        (uniform_exit (fun prog => uniformfv_inner stack prog val name))
  end.

(** [nest_scopes [u1; ...; un] body] is [u1 ... un body]: the first scope is
    the outermost one. *)
Fixpoint nest_scopes {m : mode} (fuel : nat) (us : list (scope_use m)) (body : M outcome)
    : M outcome :=
  match us with
  | [] => body
  | u :: us' => run u fuel (nest_scopes fuel us' body)
  end.

End Scopes.

(** *** Nesting *)

(** A scope that has been entered: its actions and what its locals hold. *)
Definition frame : Type := {a : scope_actions & locals a}.

Fixpoint enter_all (scopes : list scope_actions) : M (list frame) :=
  match scopes with
  | [] => ret []
  | a :: scopes' =>
      l <- enter a;;
      fs <- enter_all scopes';;
      ret (existT _ a l :: fs)
  end.

(** The exit actions of the frames [fs], in the order of the list, each on
    the locals of its own frame. *)
Fixpoint exit_all (fs : list frame) : M unit :=
  match fs with
  | [] => ret tt
  | f :: fs' => leave (projT1 f) (projT2 f);; exit_all fs'
  end.

(** Last opened, first closed: after a body that falls through or continues
    every frame is left, the innermost first; a [break] is taken by the
    innermost [for], whose step does not run; a [return] or throw leaves all
    of them and no step runs. *)
Definition lifo (scopes : list scope_actions) (body : M outcome) : M outcome :=
  fun c =>
    let '(fs, c1, t1) := enter_all scopes c in
    let '(o, c2, t2) := body c1 in
    match o with
    | Normal | Continue =>
        let '(_, c3, t3) := exit_all (rev fs) c2 in (Normal, c3, t1 ++ t2 ++ t3)
    | Break =>
        let '(_, c3, t3) := exit_all (rev (removelast fs)) c2 in (Normal, c3, t1 ++ t2 ++ t3)
    | Return => (Return, c2, t1 ++ t2)
    | Throw => (Throw, c2, t1 ++ t2)
    | Diverge => (Diverge, c2, t1 ++ t2)
    end.

(** *** Transient names

    A macro invocation sits at a line and a column of the source; the name
    of its transient [var] is [UQ(var)], which reads the line only. *)
Record site : Type := mk_site { site_line : nat; site_column : nat }.

Definition transient_name (var : string) (at_ : site) : string :=
  UQ var (site_line at_).

(** The variables a macro declares: the arguments of [UQ] in the
    declarations of its expansion, and the [var] it hands to
    [scope_begin_end_var].  [_unset_glBindSSBO] (line 223) hands over
    [ssbo], which is the name of its own first parameter: there [var] is
    what the invocation spells as its first argument, [first_argument]. *)
Definition declared_restore (s : scope_macro) : list string :=
  match s with
  | scope_glUseProgram _ => ["prog"; "i"]
  | scope_glBindVertexArray _ => ["old_vao"; "i"]
  | scope_glBindTexture _ _ => ["old_tex"; "i"]
  | scope_glBindBuffer _ _ => ["old_buf"; "i"]
  | scope_glBindArrayBuffer _ => ["old_vbo"; "i"]
  | scope_glEnable _ => ["old_flag"; "i"]
  | scope_glDisable _ => ["old_flag"; "i"]
  | scope_glBindFramebuffer _ _ => ["old_fbo"; "i"]
  | scope_glFramebufferTexture _ _ _ _ _ => ["fbotex"]
  | scope_glBindRenderbuffer _ _ => ["renbuf"]
  | scope_glFramebufferRenderbuffer _ _ _ => ["fborenbuf"]
  | scope_glViewport _ _ _ _ => ["view"; "i"]
  | scope_glClearColor _ _ _ _ => ["clear"; "i"]
  | scope_glBlendFunc _ _ => ["s"; "d"; "i"]
  | scope_glBlendEquation _ => ["e"; "i"]
  | scope_glCullFace _ => ["m"; "i"]
  | scope_glFrontFace _ => ["fo"; "i"]
  | scope_glBindTexture2D _ => ["old_tex"; "i"]
  | scope_glBindFBO _ => ["old_fbo"; "i"]
  | scope_glBindSSBO _ _ => ["old_ssbo"; "i"]
  | scope_glTex2DParameter _ _ _ _ => ["t2d"; "i"]
  end%string.

Definition declared_unset (s : scope_macro) (first_argument : string) : list string :=
  match s with
  | scope_glUseProgram _ => ["prog"]
  | scope_glBindVertexArray _ => ["vertarr"]
  | scope_glBindTexture _ _ => ["texbind"]
  | scope_glBindBuffer _ _ => ["glbuf"]
  | scope_glBindArrayBuffer _ => ["arrbuf"]
  | scope_glEnable _ => ["glenable"]
  | scope_glDisable _ => ["glenable"]
  | scope_glBindFramebuffer _ _ => ["old_fbo"]
  | scope_glFramebufferTexture _ _ _ _ _ => ["fbotex"]
  | scope_glBindRenderbuffer _ _ => ["renbuf"]
  | scope_glFramebufferRenderbuffer _ _ _ => ["fborenbuf"]
  | scope_glViewport _ _ _ _ => ["glview"]
  | scope_glClearColor _ _ _ _ => ["glclear"]
  | scope_glBlendFunc _ _ => ["glblend"]
  | scope_glBlendEquation _ => ["glblendeq"]
  | scope_glCullFace _ => ["glcull"]
  | scope_glFrontFace _ => ["glfront"]
  | scope_glBindTexture2D _ => ["texbind"]
  | scope_glBindFBO _ => ["old_fbo"]
  | scope_glBindSSBO _ _ => [first_argument]
  | scope_glTex2DParameter _ _ _ _ => ["gltexparam"]
  end%string.

Definition declared {m : mode} (u : scope_use m) (first_argument : string) : list string :=
  match u with
  | @use_macro RESTORE s => declared_restore s
  | @use_macro RESET s => declared_unset s first_argument
  | scope_glTex2DParameter_v _ _ _ => ["gltexparam"]
  | use_glUniformMatrix4fv _ _ => ["prog"; "j"; "mat"; "i"]
  | use_glUniformfv _ _ => ["prog"; "j"; "old_val"; "i"]
  end%string.

(** The name of the macro an invocation uses. *)
Definition macro_name (s : scope_macro) : string :=
  match s with
  | scope_glUseProgram _ => "scope_glUseProgram"
  | scope_glBindVertexArray _ => "scope_glBindVertexArray"
  | scope_glBindTexture _ _ => "scope_glBindTexture"
  | scope_glBindBuffer _ _ => "scope_glBindBuffer"
  | scope_glBindArrayBuffer _ => "scope_glBindArrayBuffer"
  | scope_glEnable _ => "scope_glEnable"
  | scope_glDisable _ => "scope_glDisable"
  | scope_glBindFramebuffer _ _ => "scope_glBindFramebuffer"
  | scope_glFramebufferTexture _ _ _ _ _ => "scope_glFramebufferTexture"
  | scope_glBindRenderbuffer _ _ => "scope_glBindRenderbuffer"
  | scope_glFramebufferRenderbuffer _ _ _ => "scope_glFramebufferRenderbuffer"
  | scope_glViewport _ _ _ _ => "scope_glViewport"
  | scope_glClearColor _ _ _ _ => "scope_glClearColor"
  | scope_glBlendFunc _ _ => "scope_glBlendFunc"
  | scope_glBlendEquation _ => "scope_glBlendEquation"
  | scope_glCullFace _ => "scope_glCullFace"
  | scope_glFrontFace _ => "scope_glFrontFace"
  | scope_glBindTexture2D _ => "scope_glBindTexture2D"
  | scope_glBindFBO _ => "scope_glBindFBO"
  | scope_glBindSSBO _ _ => "scope_glBindSSBO"
  | scope_glTex2DParameter _ _ _ _ => "scope_glTex2DParameter"
  end%string.

Definition use_name {m : mode} (u : scope_use m) : string :=
  match u with
  | use_macro s => macro_name s
  | scope_glTex2DParameter_v _ _ _ => "scope_glTex2DParameter"
  | use_glUniformMatrix4fv _ _ => "scope_glUniformMatrix4fv"
  | use_glUniformfv _ _ => "scope_glUniformfv"
  end%string.

(** Whether the scope names its transient after its first argument. *)
Definition names_first_argument {m : mode} (u : scope_use m) : bool :=
  match u with
  | @use_macro RESET (scope_glBindSSBO _ _) => true
  | _ => false
  end.

(** An invocation: the scope, how its first argument is spelled, and where
    it stands. *)
Record invocation (m : mode) : Type := mk_invocation {
  used : scope_use m;
  first_argument : string;
  at_site : site
}.
Arguments mk_invocation {m} _ _ _.
Arguments used {m} _.
Arguments first_argument {m} _.
Arguments at_site {m} _.

Definition transients {m : mode} (inv : invocation m) : list string :=
  map (fun var => transient_name var (at_site inv))
      (declared (used inv) (first_argument inv)).

(** *** Contexts and bodies for concrete runs *)

(** Nothing bound, nothing enabled, every value zero, no uniform known. *)
Definition blank_context : GLctx :=
  mkGLctx (fun _ => 0) (fun _ _ => -1) (fun _ _ => 0%nat).

(** Locals whose cells happen to hold zero before they are initialised. *)
Definition zero_stack : nat -> Z := fun _ => 0.

(** Locals whose cells hold leftovers: every byte 0xFF. *)
Definition dirty_stack : nat -> Z := fun _ => 0xFFFFFFFF.

Definition GL_TRIANGLES : Z := 0x0004.
Definition GL_COLOR_ATTACHMENT0 : Z := 0x8CE0.

(** [{ }], [{ glDrawArrays(GL_TRIANGLES, 0, 6); }] and bodies that leave
    early. *)
Definition empty_body : M outcome := ret Normal.
Definition draw_body : M outcome := glDrawArrays GL_TRIANGLES 0 6;; ret Normal.
Definition draw_then_break : M outcome := glDrawArrays GL_TRIANGLES 0 6;; ret Break.
Definition draw_then_return : M outcome := glDrawArrays GL_TRIANGLES 0 6;; ret Return.

(** A body that selects another program with a direct call. *)
Definition switch_program_body (program : Z) : M outcome :=
  glUseProgram program;; ret Normal.

(** Two linked programs, 1 and 2; program 1 is current.  In both, the
    mat4 "mvp" is at location 0 and the float "alpha" at location 1; the
    components of a uniform hold distinct values. *)
Definition two_programs : GLctx :=
  mkGLctx (fun sl => match sl with
                     | CurrentProgram => 1
                     | UniformValue program location k =>
                         1000 * program + 100 * location + Z.of_nat k
                     | _ => 0
                     end)
          (fun _ name => if String.eqb name "mvp" then 0 else 1)
          (fun _ location => if location =? 0 then 16%nat else 1%nat).

(** What the body of the README draws with: sixteen floats. *)
Definition some_matrix : list Z := map Z.of_nat (seq 1 16).

(** Program 3 in use; texture 5 attached to the first colour attachment;
    generic shader-storage binding 4 while binding point 2 holds buffer 8. *)
Definition program_3 : GLctx := set CurrentProgram 3 blank_context.

Definition texture_5_attached : GLctx :=
  set (AttachmentObject GL_FRAMEBUFFER GL_COLOR_ATTACHMENT0) 5 blank_context.

Definition storage_bound : GLctx :=
  set (BufferBaseBinding GL_SHADER_STORAGE_BUFFER 2) 8
    (set (BufferBinding GL_SHADER_STORAGE_BUFFER) 4 blank_context).

(** An implementation that returns from a call with the null pointer
    without touching the context. *)
Definition null_ignored : texparam_vector_ext -> Z -> Z -> M unit :=
  fun _ _ _ => ret tt.

(** The header compiled in a translation unit whose locals start at zero and
    in which [vbo] and [old_vbo] name the buffers 11 and 12 and [glFrontface]
    is declared as an alias of [glFrontFace]. *)
Definition plain_unit : mode -> scope_macro -> scope_header :=
  _scope zero_stack 11 12 glFrontFace null_ignored.

Definition plain_run {m : mode} : scope_use m -> nat -> M outcome -> M outcome :=
  run zero_stack 11 12 glFrontFace null_ignored.

Definition plain_nest {m : mode} : nat -> list (scope_use m) -> M outcome -> M outcome :=
  nest_scopes zero_stack 11 12 glFrontFace null_ignored.

Definition plain_actions {m : mode} : scope_use m -> scope_actions :=
  actions zero_stack 11 12 glFrontFace null_ignored.

(** *** Statements in sequence, and what the later properties speak of *)

(** [s1 s2]: the second statement runs when the first one falls through;
    any other ending of the first one is passed on. *)
Definition seq_stmt (s1 s2 : M outcome) : M outcome :=
  o <- s1;;
  match o with
  | Normal => s2
  | _ => ret o
  end.

Fixpoint block (ss : list (M outcome)) : M outcome :=
  match ss with
  | [] => ret Normal
  | s :: ss' => seq_stmt s (block ss')
  end.

(** The endings that belong to an enclosing loop. *)
Definition is_loop_jump (o : outcome) : bool :=
  match o with
  | Break | Continue => true
  | _ => false
  end.

(** The calls that read the context. *)
Definition is_query (e : gl_call) : bool :=
  match e with
  | Call_glGetIntegerv _ | Call_glGetBooleanv _ | Call_glGetFloatv _
  | Call_glGetTexParameter _ _ _ | Call_glGetUniformLocation _ _
  | Call_glGetUniformfv _ _ => true
  | _ => false
  end.

Definition is_uniform_value (sl : slot) : bool :=
  match sl with
  | UniformValue _ _ _ => true
  | _ => false
  end.

(** What the enter action of a macro writes: the slots of the macro and the
    value each one holds when the body starts.  [_restore_glBindBuffer] binds
    what [vbo] names; [_unset_glFrontFace] enters through [glFrontface], of
    which nothing is known. *)
Definition applied (vbo : Z) (m : mode) (s : scope_macro) : list (slot * Z) :=
  match s with
  | scope_glUseProgram id => [(CurrentProgram, id)]
  | scope_glBindVertexArray vao => [(VertexArrayBinding, vao)]
  | scope_glBindTexture target texture => [(TextureBinding target, texture)]
  | scope_glBindBuffer target buffer =>
      [(BufferBinding target, match m with RESTORE => vbo | RESET => buffer end)]
  | scope_glBindArrayBuffer vbo => [(BufferBinding GL_ARRAY_BUFFER, vbo)]
  | scope_glEnable enumval => [(Capability enumval, GL_TRUE)]
  | scope_glDisable enumval => [(Capability enumval, GL_FALSE)]
  | scope_glBindFramebuffer target fbo =>
      map (fun sl => (sl, fbo)) (slots_of (scope_glBindFramebuffer target fbo))
  | scope_glFramebufferTexture target attachment textarget texture level =>
      [(AttachmentTarget target attachment, textarget);
       (AttachmentObject target attachment, texture);
       (AttachmentLevel target attachment, level)]
  | scope_glBindRenderbuffer target renderbuffer =>
      [(RenderbufferBinding target, renderbuffer)]
  | scope_glFramebufferRenderbuffer _ attachment renderbuffer =>
      [(AttachmentTarget GL_FRAMEBUFFER attachment, GL_RENDERBUFFER);
       (AttachmentObject GL_FRAMEBUFFER attachment, renderbuffer);
       (AttachmentLevel GL_FRAMEBUFFER attachment, 0)]
  | scope_glViewport x y w h =>
      [(Viewport 0, x); (Viewport 1, y); (Viewport 2, w); (Viewport 3, h)]
  | scope_glClearColor r g b a =>
      [(ClearColor 0, r); (ClearColor 1, g); (ClearColor 2, b); (ClearColor 3, a)]
  | scope_glBlendFunc src dst => [(BlendSrc, src); (BlendDst, dst)]
  | scope_glBlendEquation eq => [(BlendEquation, eq)]
  | scope_glCullFace mode => [(CullFaceMode, mode)]
  | scope_glFrontFace orient =>
      match m with RESTORE => [(FrontFace, orient)] | RESET => [] end
  | scope_glBindTexture2D tex_id => [(TextureBinding GL_TEXTURE_2D, tex_id)]
  | scope_glBindFBO fbo =>
      [(FramebufferBinding GL_DRAW_FRAMEBUFFER, fbo);
       (FramebufferBinding GL_READ_FRAMEBUFFER, fbo)]
  | scope_glBindSSBO ssbo binding =>
      [(BufferBinding GL_SHADER_STORAGE_BUFFER, ssbo);
       (BufferBaseBinding GL_SHADER_STORAGE_BUFFER binding, ssbo)]
  | scope_glTex2DParameter ext param ty val =>
      [(TexParameter GL_TEXTURE_2D param 0, convert ty (param_type ext) val)]
  end.

(** Whether the step of a scope runs when the body ends with [o], for a
    scope with [inner] scopes nested inside it: a [break] is taken by the
    innermost scope, so the step of every scope around that one runs. *)
Definition reaches_step (inner : nat) (o : outcome) : bool :=
  match o with
  | Normal | Continue => true
  | Break => negb (Nat.eqb inner 0)
  | _ => false
  end.

(** Whether the exit action of a scope stays within what C and OpenGL
    define: not so with a vector suffix, where the exit call reads through
    the null pointer. *)
Definition exit_defined {m : mode} (u : scope_use m) : bool :=
  match u with
  | scope_glTex2DParameter_v _ _ _ => false
  | _ => true
  end.

(** The slots a scope may write.  A uniform scope writes uniform values,
    which ones depends on the program that is current at the time. *)
Definition addresses {m : mode} (u : scope_use m) (sl : slot) : Prop :=
  match u with
  | use_macro s => In sl (slots_of s)
  | scope_glTex2DParameter_v _ param _ => exists k, sl = TexParameter GL_TEXTURE_2D param k
  | use_glUniformMatrix4fv _ _ | use_glUniformfv _ _ => is_uniform_value sl = true
  end.

(** Draw framebuffer 4 and read framebuffer 8 bound. *)
Definition split_framebuffers : GLctx :=
  set (FramebufferBinding GL_READ_FRAMEBUFFER) 8
    (set (FramebufferBinding GL_DRAW_FRAMEBUFFER) 4 blank_context).

(** * Properties *)

Lemma loop_single_pass {L : Type} (h : for_header L) (fuel : nat)
    (body : L -> M outcome) (l : L) (c : GLctx) :
  cond h l = true ->
  (forall c', cond h (result_of (step h l c')) = false) ->
  loop (S (S fuel)) h body l c =
    let '(o, c2, t2) := body l c in
    match o with
    | Normal | Continue => let '(_, c3, t3) := step h l c2 in (Normal, c3, t2 ++ t3)
    | Break => (Normal, c2, t2)
    | Return => (Return, c2, t2)
    | Throw => (Throw, c2, t2)
    | Diverge => (Diverge, c2, t2)
    end.
Proof.
  intros Hc Hs.
  cbn [loop]. rewrite Hc. unfold bind at 1.
  destruct (body l c) as [[o c2] t2].
  destruct o; cbn [ret]; rewrite ?app_nil_r; try reflexivity.
  all: unfold bind; specialize (Hs c2); unfold result_of in Hs;
       destruct (step h l c2) as [[l' c3] t3]; cbn in Hs; rewrite Hs;
       cbn; now rewrite app_nil_r.
Qed.

(** A [for] statement whose header is single-pass, over a body that may
    read the locals. *)
Lemma exec_for_single_pass {L : Type} (h : for_header L) (fuel : nat)
    (body : L -> M outcome) (c : GLctx) :
  single_pass h ->
  exec_for (S (S fuel)) h body c =
    let '(l, c1, t1) := init h c in
    let '(o, c2, t2) := body l c1 in
    match o with
    | Normal | Continue => let '(_, c3, t3) := step h l c2 in (Normal, c3, t1 ++ t2 ++ t3)
    | Break => (Normal, c2, t1 ++ t2)
    | Return => (Return, c2, t1 ++ t2)
    | Throw => (Throw, c2, t1 ++ t2)
    | Diverge => (Diverge, c2, t1 ++ t2)
    end.
Proof.
  intros [Hi Hs].
  unfold exec_for, bind.
  specialize (Hi c). unfold result_of in Hi.
  destruct (init h c) as [[l c1] t1]. cbn in Hi.
  rewrite (loop_single_pass h fuel body l c1 Hi (fun c' => Hs l c' Hi)).
  destruct (body l c1) as [[o c2] t2].
  destruct o; try reflexivity; destruct (step h l c2) as [[l' c3] t3]; reflexivity.
Qed.

Lemma scoped_guarded {L : Type} (h : for_header L) (fuel : nat) (body : M outcome)
    (c : GLctx) :
  single_pass h ->
  scoped (S (S fuel)) h body c = guarded (init h) (step h) body c.
Proof.
  intros H. unfold scoped. now rewrite exec_for_single_pass.
Qed.

Lemma get_set_same s v c : get (set s v c) s = v.
Proof. unfold get, set, slot_eqb; cbn. destruct (slot_eq_dec s s); congruence. Qed.

Lemma get_set_other s s' v c : s <> s' -> get (set s v c) s' = get c s'.
Proof.
  intros H. unfold get, set, slot_eqb; cbn. destruct (slot_eq_dec s s'); congruence.
Qed.

Lemma convert_zero ty : convert type_int ty 0 = 0.
Proof. destruct ty; reflexivity. Qed.

Lemma convert_same ty v : convert ty ty v = v.
Proof. destruct ty; reflexivity. Qed.

#[global] Arguments get : simpl never.
#[global] Arguments convert : simpl never.
#[global] Arguments set : simpl never.

Lemma guarded_falls_through {L X : Type} (enter : M L) (exit : L -> M X) body c :
  falls_through (result_of (body (ctx_of (enter c)))) = true ->
  guarded enter exit body c =
    (Normal,
     ctx_of (exit (result_of (enter c)) (ctx_of (body (ctx_of (enter c))))),
     log_of (enter c) ++ log_of (body (ctx_of (enter c))) ++
     log_of (exit (result_of (enter c)) (ctx_of (body (ctx_of (enter c)))))).
Proof.
  unfold guarded, result_of, ctx_of, log_of.
  destruct (enter c) as [[l c1] t1]; cbn.
  destruct (body c1) as [[o c2] t2]; cbn.
  destruct o; cbn; try discriminate; intros _;
    destruct (exit l c2) as [[x c3] t3]; reflexivity.
Qed.

Lemma guarded_frame {L X : Type} (enter : M L) (exit : L -> M X) body c sl :
  (forall c', get (ctx_of (enter c')) sl = get c' sl) ->
  (forall l c', get (ctx_of (exit l c')) sl = get c' sl) ->
  (forall c', get (ctx_of (body c')) sl = get c' sl) ->
  get (ctx_of (guarded enter exit body c)) sl = get c sl.
Proof.
  intros He Hx Hb. unfold guarded.
  specialize (He c). unfold ctx_of in *.
  destruct (enter c) as [[l c1] t1]; cbn in He.
  specialize (Hb c1). destruct (body c1) as [[o c2] t2]; cbn in Hb.
  specialize (Hx l c2).
  destruct o; cbn; try congruence;
    destruct (exit l c2) as [[x c3] t3]; cbn in *; congruence.
Qed.

Lemma texture_binding_queried target :
  _scope_gl_map_texture_target_to_binding target <> 0 ->
  integer_state (_scope_gl_map_texture_target_to_binding target)
  = Some [TextureBinding target].
Proof.
  unfold _scope_gl_map_texture_target_to_binding.
  repeat match goal with
         | |- context [if ?a =? ?b then _ else _] =>
             destruct (Z.eqb_spec a b); [ subst; intros _; reflexivity | ]
         end.
  congruence.
Qed.

Lemma store_GLboolean_clean x b :
  x / 256 = 0 -> (b = 0 \/ b = 1) -> store_GLboolean x b = b.
Proof.
  intros Hx Hb. unfold store_GLboolean. rewrite Hx.
  destruct Hb; subst; reflexivity.
Qed.

(** Proof steps shared by the case analyses over the macros. *)
Ltac split_locals :=
  repeat match goal with
         | l : (_ * _)%type |- _ => destruct l
         end.

Ltac in_cases H :=
  cbn in H;
  repeat match type of H with
         | _ \/ _ => destruct H as [H | H]
         | False => destruct H
         | In _ [] => destruct H
         end; subst.

Ltac slot_simpl :=
  repeat first
    [ rewrite get_set_same
    | rewrite get_set_other by congruence ].

Ltac frame_simpl Hsl :=
  repeat rewrite get_set_other by (intros E; apply Hsl; cbn; rewrite ?E; auto 10).

Ltac split_target :=
  repeat match goal with
         | |- context [?t =? GL_FRAMEBUFFER] =>
             is_var t; destruct (Z.eq_dec t GL_FRAMEBUFFER) as [-> | Hne];
             [ | let E := fresh "Eb" in
                 pose proof (proj2 (Z.eqb_neq _ _) Hne) as E; rewrite E in * ]
         | H : context [?t =? GL_FRAMEBUFFER] |- _ =>
             is_var t; destruct (Z.eq_dec t GL_FRAMEBUFFER) as [-> | Hne];
             [ | let E := fresh "Eb" in
                 pose proof (proj2 (Z.eqb_neq _ _) Hne) as E; rewrite E in * ]
         end.

Ltac other_target :=
  repeat match goal with
         | E : (?a =? ?b) = false |- context [?a =? ?b] => rewrite E
         end.

Ltac incl_simpl :=
  repeat apply Forall_cons; try apply Forall_nil;
  cbn [written];
  other_target;
  cbn;
  solve [ apply incl_nil_l | apply incl_refl | intros x Hx; cbn in Hx |- *; tauto ].

Lemma guarded_ext {L X : Type} (enter : M L) (exit : L -> M X) b1 b2 c :
  (forall c', b1 c' = b2 c') -> guarded enter exit b1 c = guarded enter exit b2 c.
Proof.
  intros H. unfold guarded. destruct (enter c) as [[l c1] t1]. now rewrite H.
Qed.

Lemma exit_all_app fs1 fs2 c :
  exit_all (fs1 ++ fs2) c =
  let '(_, c1, t1) := exit_all fs1 c in
  let '(_, c2, t2) := exit_all fs2 c1 in
  (tt, c2, t1 ++ t2).
Proof.
  revert c. induction fs1 as [| f fs1 IH]; intros c; cbn [app exit_all].
  - cbn. destruct (exit_all fs2 c) as [[[] c2] t2]. reflexivity.
  - unfold bind.
    destruct (leave (projT1 f) (projT2 f) c) as [[l c1] t1].
    rewrite IH.
    destruct (exit_all fs1 c1) as [[[] c2] t2].
    destruct (exit_all fs2 c2) as [[[] c3] t3].
    now rewrite app_assoc.
Qed.

(** Opening one more scope around a nest: the new scope is entered first and
    left last. *)
Lemma lifo_cons a a' scopes body c :
  lifo (a :: a' :: scopes) body c =
  guarded (enter a) (leave a) (lifo (a' :: scopes) body) c.
Proof.
  unfold lifo, guarded.
  cbn [enter_all]. unfold bind.
  destruct (enter a c) as [[l c1] t1].
  destruct (enter a' c1) as [[l' c1'] t1'].
  destruct (enter_all scopes c1') as [[fs c1''] t1''].
  cbn [ret].
  destruct (body c1'') as [[o c2] t2].
  destruct o.
  2: cbn [removelast];
     match goal with
     | |- context [exit_all (rev ?x) _ ] =>
         match x with
         | match _ with [] => _ | _ :: _ => _ end => generalize x; intros fs'
         end
     end.
  1-3: cbn [rev]; rewrite exit_all_app; cbn [exit_all projT1 projT2]; unfold bind;
       match goal with
       | |- context [exit_all ?x ?c] => destruct (exit_all x c) as [[[] ?c3] ?t3]
       end;
       cbv beta iota;
       match goal with
       | |- context [leave ?x ?y ?c] => destruct (leave x y c) as [[? ?] ?]
       end; cbn.
  all: now rewrite ?app_nil_r, <- ?app_assoc.
Qed.

Lemma lifo_one a body c :
  lifo [a] body c = guarded (enter a) (leave a) body c.
Proof.
  unfold lifo, guarded. cbn [enter_all]. unfold bind.
  destruct (enter a c) as [[l c1] t1]. cbn [ret].
  destruct (body c1) as [[o c2] t2].
  destruct o; cbn; unfold bind;
    try destruct (leave a l c2) as [[l2 c3] t3]; cbn;
    now rewrite ?app_nil_r, <- ?app_assoc.
Qed.

Lemma append_inj_r (p a b : string) : (p ++ a)%string = (p ++ b)%string -> a = b.
Proof.
  induction p as [| ch p IH]; cbn; intros H; [ exact H | ].
  injection H as H. now apply IH.
Qed.

Lemma LINE_token_inj l1 l2 : LINE_token l1 = LINE_token l2 -> l1 = l2.
Proof.
  unfold LINE_token. intros H.
  assert (E : Some (Nat.to_uint l1) = Some (Nat.to_uint l2)).
  { rewrite <- !NilEmpty.usu. now rewrite H. }
  injection E as E.
  rewrite <- (Unsigned.of_to l1), <- (Unsigned.of_to l2). now rewrite E.
Qed.

Lemma glFrontFace_frontface_like : frontface_like glFrontFace.
Proof.
  intros orient c. split.
  - intros sl H. cbn. now rewrite get_set_other by congruence.
  - cbn. apply Forall_cons; [ apply incl_refl | apply Forall_nil ].
Qed.

Section Properties.

Variable stack : nat -> Z.
Variables vbo old_vbo_LINE : Z.
Variable glFrontface : Z -> M unit.
Variable read_through_null : texparam_vector_ext -> Z -> Z -> M unit.

Local Abbreviation expand := (_scope stack vbo old_vbo_LINE glFrontface read_through_null).
Local Abbreviation run_scope := (run stack vbo old_vbo_LINE glFrontface read_through_null).
Local Abbreviation actions_of :=
  (actions stack vbo old_vbo_LINE glFrontface read_through_null).
Local Abbreviation nest_of :=
  (nest_scopes stack vbo old_vbo_LINE glFrontface read_through_null).

Lemma single_pass_scope m s : single_pass (projT2 (expand m s)).
Proof.
  destruct m, s; (split; [ intros c; cbn; try reflexivity | ]).
  all: try (unfold bind, result_of; destruct (glFrontface _ _) as [[? ?] ?]; reflexivity).
  all: intros l c H; cbn in l; split_locals; cbn in H; apply Z.eqb_eq in H; subst; cbn;
       try reflexivity.
  all: match goal with |- context [negb ?b] => destruct (negb b) end; reflexivity.
Qed.

Lemma stmt_guarded m s fuel body c :
  stmt (expand m s) (S (S fuel)) body c =
  guarded (init (projT2 (expand m s))) (step (projT2 (expand m s))) body c.
Proof. apply scoped_guarded, single_pass_scope. Qed.

Lemma single_pass_uniform_outer : single_pass (uniform_outer stack).
Proof.
  split; [ reflexivity | ].
  intros [prog j] c H; cbn in H; apply Z.eqb_eq in H; subst; reflexivity.
Qed.

Lemma single_pass_uniformMatrix4fv_inner prog matrix name :
  single_pass (uniformMatrix4fv_inner stack prog matrix name).
Proof.
  split; [ reflexivity | ].
  intros [mat i] c H; cbn in H; apply Z.eqb_eq in H; subst; reflexivity.
Qed.

Lemma single_pass_uniformfv_inner prog val name :
  single_pass (uniformfv_inner stack prog val name).
Proof.
  split; [ reflexivity | ].
  intros [old_val i] c H; cbn in H; apply Z.eqb_eq in H; subst; reflexivity.
Qed.

(** The two nested [for] statements of a uniform scope behave as one scope
    whose locals are the program handle and the locals of the inner
    header. *)
Lemma uniform_guarded {L : Type} (inner : Z -> for_header L) fuel body c :
  (forall prog, single_pass (inner prog)) ->
  exec_for (S (S fuel)) (uniform_outer stack)
           (fun '(prog, _) => scoped (S (S fuel)) (inner prog) body) c =
  guarded (uniform_enter stack inner) (uniform_exit inner) body c.
Proof.
  intros Hin.
  rewrite (exec_for_single_pass _ _ _ _ single_pass_uniform_outer).
  cbn [init uniform_outer]. unfold uniform_enter, uniform_exit.
  set (q := glGetIntegerv1 GL_CURRENT_PROGRAM (stack 0%nat)).
  unfold guarded, bind.
  destruct (q c) as [[prog c0] t0].
  cbn [ret].
  rewrite (scoped_guarded (inner prog) fuel body c0 (Hin prog)).
  unfold guarded.
  destruct (init (inner prog) c0) as [[l c1] t1].
  destruct (body c1) as [[o c2] t2].
  destruct o; cbn; rewrite ?app_nil_r, ?app_assoc; try reflexivity.
  all: destruct (step (inner prog) l c2) as [[l' c3] t3]; cbn;
       rewrite ?app_nil_r, ?app_assoc; reflexivity.
Qed.

Lemma scope_glUniformMatrix4fv_guarded matrix name fuel body c :
  scope_glUniformMatrix4fv stack matrix name (S (S fuel)) body c =
  guarded (uniform_enter stack (fun prog => uniformMatrix4fv_inner stack prog matrix name))
          (uniform_exit (fun prog => uniformMatrix4fv_inner stack prog matrix name))
          body c.
Proof.
  unfold scope_glUniformMatrix4fv.
  apply (uniform_guarded (fun prog => uniformMatrix4fv_inner stack prog matrix name)).
  intros prog. apply single_pass_uniformMatrix4fv_inner.
Qed.

Lemma scope_glUniformfv_guarded val name fuel body c :
  scope_glUniformfv stack val name (S (S fuel)) body c =
  guarded (uniform_enter stack (fun prog => uniformfv_inner stack prog val name))
          (uniform_exit (fun prog => uniformfv_inner stack prog val name))
          body c.
Proof.
  unfold scope_glUniformfv.
  apply (uniform_guarded (fun prog => uniformfv_inner stack prog val name)).
  intros prog. apply single_pass_uniformfv_inner.
Qed.

Lemma single_pass_scope_begin_end_var begin end_ :
  single_pass (scope_begin_end_var begin end_).
Proof.
  split.
  - intros c. cbn. unfold bind, result_of. destruct (begin c) as [[[] c1] t1]. reflexivity.
  - intros var c H. cbn in H. apply Z.eqb_eq in H. subst var.
    cbn. unfold bind, result_of. destruct (end_ c) as [[[] c1] t1]. reflexivity.
Qed.

(** Every scope of [scope_use] is one pass through its pair of actions. *)
Lemma run_guarded {m : mode} (u : scope_use m) fuel body c :
  run_scope u (S (S fuel)) body c =
  guarded (enter (actions_of u)) (leave (actions_of u)) body c.
Proof.
  destruct u; cbn [run actions header_actions enter leave].
  - apply stmt_guarded.
  - apply scoped_guarded. apply single_pass_scope_begin_end_var.
  - apply scope_glUniformMatrix4fv_guarded.
  - apply scope_glUniformfv_guarded.
Qed.

Lemma nest_scopes_lifo {m : mode} (u : scope_use m) us fuel body c :
  nest_of (S (S fuel)) (u :: us) body c = lifo (map actions_of (u :: us)) body c.
Proof.
  revert u body c. induction us as [| u' us IH]; intros u body c.
  - cbn [nest_scopes map]. rewrite run_guarded. now rewrite lifo_one.
  - cbn [nest_scopes map]. rewrite run_guarded.
    rewrite lifo_cons. apply guarded_ext. intros c'.
    apply (IH u' body c').
Qed.

Lemma restore_step_restores s sl c c2 :
  In sl (restored_slots s) ->
  get (ctx_of (step (projT2 (expand RESTORE s))
                    (result_of (init (projT2 (expand RESTORE s)) c)) c2)) sl
  = get c sl.
Proof.
  intros H. destruct s; cbn [restored_slots] in H.
  3: { destruct (Z.eqb_spec (_scope_gl_map_texture_target_to_binding target) 0) as [E | E];
       in_cases H. cbn. rewrite (texture_binding_queried _ E). cbn. now slot_simpl. }
  all: try (in_cases H; cbn; now slot_simpl).
  destruct ext, ty; in_cases H; cbn; rewrite ?convert_same; now slot_simpl.
Qed.

Lemma reset_step_resets s sl l c :
  In sl (reset_slots s) ->
  get (ctx_of (step (projT2 (expand RESET s)) l c)) sl = reset_value s.
Proof.
  intros H. unfold reset_slots in H.
  destruct s; cbn [slots_of] in H; split_target; in_cases H; cbn;
    other_target; rewrite ?convert_zero; now slot_simpl.
Qed.

Lemma uniform_location_set_components f k vs c :
  uniform_location (set_components f k vs c) = uniform_location c.
Proof.
  revert k c. induction vs as [| v vs IH]; intros k c; cbn [set_components].
  - reflexivity.
  - now rewrite IH.
Qed.

Lemma set_components_other_upto f k vs c sl :
  (forall j, (k <= j < k + List.length vs)%nat -> f j <> sl) ->
  get (set_components f k vs c) sl = get c sl.
Proof.
  revert k c. induction vs as [| v vs IH]; intros k c H; cbn [set_components].
  - reflexivity.
  - rewrite IH.
    + apply get_set_other. apply H. cbn [List.length]. lia.
    + intros j Hj. apply H. cbn [List.length]. lia.
Qed.

Lemma uniform_matrix_frame matrix name fuel body c sl :
  (forall c', get (ctx_of (body c')) sl = get c' sl) ->
  (is_uniform_value sl = false \/
   ((forall c', get (ctx_of (body c')) CurrentProgram = get c' CurrentProgram) /\
    (forall c', uniform_location (ctx_of (body c')) (get c CurrentProgram) name
                = uniform_location c' (get c CurrentProgram) name) /\
    (forall k, (k < 16)%nat ->
       sl <> UniformValue (get c CurrentProgram)
                          (uniform_location c (get c CurrentProgram) name) k))) ->
  get (ctx_of (scope_glUniformMatrix4fv stack matrix name (S (S fuel)) body c)) sl = get c sl.
Proof.
  intros Hb [Hnu | [HP [Hl Hne]]].
  - assert (Hne : forall p l j, UniformValue p l j <> sl).
    { intros p l j E. subst sl. discriminate Hnu. }
    rewrite scope_glUniformMatrix4fv_guarded. apply guarded_frame; [ | | exact Hb ].
    + intros c'. cbn -[firstn]. apply set_components_other_upto. intros j _. apply Hne.
    + intros [prog [mat i]] c'. cbn -[firstn].
      apply set_components_other_upto. intros j _. apply Hne.
  - rewrite scope_glUniformMatrix4fv_guarded. unfold guarded. cbn -[firstn].
    change (hd (stack 0%nat) (overwrite [stack 0%nat] [get c CurrentProgram]))
      with (get c CurrentProgram).
    set (P := get c CurrentProgram) in *.
    set (loc := uniform_location c P name) in *.
    set (c1 := set_components (UniformValue P loc) 0 (firstn 16 matrix) c).
    assert (Hw : forall vs c', get c' CurrentProgram = P -> uniform_location c' P name = loc ->
                   get (set_components (UniformValue (get c' CurrentProgram)
                                                     (uniform_location c' P name)) 0
                                       (firstn 16 vs) c') sl = get c' sl).
    { intros vs c' -> ->. apply set_components_other_upto. intros j Hj.
      rewrite length_firstn in Hj. intros E. apply (Hne j); [ lia | now symmetry ]. }
    assert (H1 : get c1 sl = get c sl) by (apply (Hw matrix c); reflexivity).
    assert (HP1 : get c1 CurrentProgram = P).
    { apply set_components_other_upto. intros j _. discriminate. }
    assert (Hl1 : uniform_location c1 P name = loc).
    { unfold c1. now rewrite uniform_location_set_components. }
    specialize (Hb c1). specialize (HP c1). specialize (Hl c1).
    unfold ctx_of in *. destruct (body c1) as [[o c2] t2]. cbn [fst snd] in *.
    destruct o; cbn -[firstn]; try congruence.
    all: rewrite Hw by congruence; congruence.
Qed.

Lemma uniform_scalar_frame val name fuel body c sl :
  (forall c', get (ctx_of (body c')) sl = get c' sl) ->
  (is_uniform_value sl = false \/
   ((forall c', get (ctx_of (body c')) CurrentProgram = get c' CurrentProgram) /\
    (forall c', uniform_location (ctx_of (body c')) (get c CurrentProgram) name
                = uniform_location c' (get c CurrentProgram) name) /\
    sl <> UniformValue (get c CurrentProgram)
                       (uniform_location c (get c CurrentProgram) name) 0)) ->
  get (ctx_of (scope_glUniformfv stack val name (S (S fuel)) body c)) sl = get c sl.
Proof.
  intros Hb [Hnu | [HP [Hl Hne]]].
  - assert (Hne : forall p l j, UniformValue p l j <> sl).
    { intros p l j E. subst sl. discriminate Hnu. }
    rewrite scope_glUniformfv_guarded. apply guarded_frame; [ | | exact Hb ].
    + intros c'. cbn. apply get_set_other, Hne.
    + intros [prog [old i]] c'. cbn. apply get_set_other, Hne.
  - rewrite scope_glUniformfv_guarded. unfold guarded. cbn.
    set (P := get c CurrentProgram) in *.
    set (loc := uniform_location c P name) in *.
    set (c1 := set (UniformValue P loc 0) val c).
    assert (H1 : get c1 sl = get c sl) by (apply get_set_other; congruence).
    assert (HP1 : get c1 CurrentProgram = P) by (apply get_set_other; discriminate).
    assert (Hl1 : uniform_location c1 P name = loc) by reflexivity.
    specialize (Hb c1). specialize (HP c1). specialize (Hl c1).
    unfold ctx_of in *. destruct (body c1) as [[o c2] t2]. cbn [fst snd] in *.
    destruct o; cbn; try congruence.
    all: rewrite HP, HP1, Hl, Hl1; rewrite get_set_other by congruence; congruence.
Qed.

(** A uniform scope whose body leaves the current program and the location
    of the uniform as they were writes the old value back. *)
Lemma uniform_scopes_restore matrix val name fuel body c :
  let P := get c CurrentProgram in
  let loc := uniform_location c P name in
  (let start := ctx_of (uniform_enter stack
                          (fun prog => uniformMatrix4fv_inner stack prog matrix name) c) in
   falls_through (result_of (body start)) = true ->
   get (ctx_of (body start)) CurrentProgram = P ->
   uniform_location (ctx_of (body start)) P name = loc ->
   uniform_components c P loc = 16%nat ->
   forall k, (k < 16)%nat ->
     get (ctx_of (scope_glUniformMatrix4fv stack matrix name (S (S fuel)) body c))
         (UniformValue P loc k) = get c (UniformValue P loc k)) /\
  (let start := ctx_of (uniform_enter stack
                          (fun prog => uniformfv_inner stack prog val name) c) in
   falls_through (result_of (body start)) = true ->
   get (ctx_of (body start)) CurrentProgram = P ->
   uniform_location (ctx_of (body start)) P name = loc ->
   uniform_components c P loc = 1%nat ->
   get (ctx_of (scope_glUniformfv stack val name (S (S fuel)) body c))
       (UniformValue P loc 0) = get c (UniformValue P loc 0)).
Proof.
  intros P loc. split.
  - intros start Hb HP Hloc H16 k Hk. subst start.
    rewrite scope_glUniformMatrix4fv_guarded.
    rewrite (guarded_falls_through _ _ _ _ Hb).
    cbn [ctx_of log_of fst snd].
    revert HP Hloc.
    generalize (ctx_of (body (ctx_of (uniform_enter stack
                  (fun prog => uniformMatrix4fv_inner stack prog matrix name) c)))).
    intros c2 HP Hloc. clear Hb.
    subst P loc. cbn. cbn in HP, Hloc. rewrite HP, Hloc, H16.
    do 16 (destruct k as [| k]; [ cbn; now slot_simpl | ]). lia.
  - intros start Hb HP Hloc H1. subst start.
    rewrite scope_glUniformfv_guarded.
    rewrite (guarded_falls_through _ _ _ _ Hb).
    cbn [ctx_of log_of fst snd].
    revert HP Hloc.
    generalize (ctx_of (body (ctx_of (uniform_enter stack
                  (fun prog => uniformfv_inner stack prog val name) c)))).
    intros c2 HP Hloc. clear Hb.
    subst P loc. cbn. cbn in HP, Hloc. rewrite HP, Hloc, H1.
    cbn. now slot_simpl.
Qed.

(** C1, as the header implements it.  One invocation of a scope macro runs
    the enter action (the initialiser of its [for] header), then the body
    exactly once in the context the enter action leaves, and then the exit
    action (the step of the header) exactly once when the body falls through
    or executes [continue], which the macro's own loop takes.  When the body
    executes [break], which ends the macro's own loop, or leaves by [return]
    or by an error passing through, the exit action does not run.  This holds
    for every mode-switched macro in both modes and for the two uniform
    scopes. *)
Theorem scope_runs_enter_body_exit :
  (forall m s fuel body c,
     stmt (expand m s) (S (S fuel)) body c =
     guarded (init (projT2 (expand m s))) (step (projT2 (expand m s))) body c) /\
  (forall matrix name fuel body c,
     scope_glUniformMatrix4fv stack matrix name (S (S fuel)) body c =
     guarded (uniform_enter stack (fun prog => uniformMatrix4fv_inner stack prog matrix name))
             (uniform_exit (fun prog => uniformMatrix4fv_inner stack prog matrix name))
             body c) /\
  (forall val name fuel body c,
     scope_glUniformfv stack val name (S (S fuel)) body c =
     guarded (uniform_enter stack (fun prog => uniformfv_inner stack prog val name))
             (uniform_exit (fun prog => uniformfv_inner stack prog val name))
             body c).
Proof.
  split; [ | split ]; intros.
  - apply stmt_guarded.
  - apply scope_glUniformMatrix4fv_guarded.
  - apply scope_glUniformfv_guarded.
Qed.

(** C2, as the header implements it.  In RESTORE mode, when the body falls
    through or continues, every slot that the macro read back on entry holds
    its value of before the scope again, whatever the body did to the
    context (for the 2D texture parameter: when [val] has the type of the
    parameter of the entry point, so that the local holds what was read
    without a conversion); a capability holds its previous state again when
    the three bytes of the local that the one-byte query does not write were
    zero; and the framebuffer-attachment and renderbuffer bindings, which do
    not restore, hold zero. *)
Theorem restore_mode_restores s fuel body c :
  falls_through (result_of (body (entered (expand RESTORE s) c))) = true ->
  let final := ctx_of (stmt (expand RESTORE s) (S (S fuel)) body c) in
  (forall sl, In sl (restored_slots s) -> get final sl = get c sl) /\
  (forall cap, restored_flag s = Some cap -> stack 0%nat / 256 = 0 ->
               enabled final cap = enabled c cap) /\
  (forall sl, In sl (detached_slots s) -> get final sl = 0).
Proof.
  intros Hb final. subst final. unfold entered in Hb.
  rewrite stmt_guarded, (guarded_falls_through _ _ _ _ Hb).
  cbn [ctx_of fst snd].
  generalize (ctx_of (body (ctx_of (init (projT2 (expand RESTORE s)) c)))). intros c2.
  clear Hb.
  repeat split.
  - intros sl H. destruct s; cbn [restored_slots] in H.
    3: { destruct (Z.eqb_spec (_scope_gl_map_texture_target_to_binding target) 0) as [E | E];
         in_cases H. cbn. rewrite (texture_binding_queried _ E). cbn. now slot_simpl. }
    all: try (in_cases H; cbn; now slot_simpl).
    destruct ext, ty; in_cases H; cbn; rewrite ?convert_same; now slot_simpl.
  - intros cap H Hstack. destruct s; try discriminate H; injection H as <-; cbn.
    all: unfold enabled.
    all: rewrite store_GLboolean_clean by
           (try assumption; destruct (get c (Capability enumval) =? 0); auto).
    all: destruct (get c (Capability enumval) =? 0) eqn:E; cbn; slot_simpl; reflexivity.
  - intros sl H. destruct s; in_cases H; cbn; now slot_simpl.
Qed.

(** C3, as the header implements it.  In RESET mode, when the body falls
    through or continues, every slot of a mode-switched macro holds the
    fixed value of the macro, whatever it held before the scope: zero, and
    GL_TRUE (enabled) for [scope_glDisable].  With program 3 active,
    [scope_glUseProgram(9) { }] leaves program 0 active.  The two uniform
    scopes have one form only: in a RESET build too they write the old value
    of the uniform back.  [scope_glTex2DParameter] with a vector suffix
    makes its exit call with the null pointer. *)
Theorem reset_mode_resets :
  (forall s fuel body c,
     falls_through (result_of (body (entered (expand RESET s) c))) = true ->
     forall sl, In sl (reset_slots s) ->
       get (ctx_of (stmt (expand RESET s) (S (S fuel)) body c)) sl = reset_value s) /\
  (forall fuel c,
     get (ctx_of (stmt (expand RESET (scope_glUseProgram 9)) (S (S fuel)) empty_body
                       (set CurrentProgram 3 c))) CurrentProgram = 0) /\
  (forall matrix val name fuel body c,
     let P := get c CurrentProgram in
     let loc := uniform_location c P name in
     (let u := @use_glUniformMatrix4fv RESET matrix name in
      let start := ctx_of (enter (actions_of u) c) in
      falls_through (result_of (body start)) = true ->
      get (ctx_of (body start)) CurrentProgram = P ->
      uniform_location (ctx_of (body start)) P name = loc ->
      uniform_components c P loc = 16%nat ->
      forall k, (k < 16)%nat ->
        get (ctx_of (run_scope u (S (S fuel)) body c)) (UniformValue P loc k)
        = get c (UniformValue P loc k)) /\
     (let u := @use_glUniformfv RESET val name in
      let start := ctx_of (enter (actions_of u) c) in
      falls_through (result_of (body start)) = true ->
      get (ctx_of (body start)) CurrentProgram = P ->
      uniform_location (ctx_of (body start)) P name = loc ->
      uniform_components c P loc = 1%nat ->
      get (ctx_of (run_scope u (S (S fuel)) body c)) (UniformValue P loc 0)
      = get c (UniformValue P loc 0))) /\
  (forall ext param val l c,
     log_of (leave (actions_of (scope_glTex2DParameter_v ext param val)) l c)
     = Call_glTexParameterv ext GL_TEXTURE_2D param NULL
       :: log_of (read_through_null ext GL_TEXTURE_2D param c)).
Proof.
  split; [ | split; [ | split ] ].
  - intros s fuel body c Hb sl H.
    unfold entered in Hb.
    rewrite stmt_guarded, (guarded_falls_through _ _ _ _ Hb).
    cbn [ctx_of fst snd]. now apply reset_step_resets.
  - intros fuel c. rewrite stmt_guarded. cbn. now slot_simpl.
  - intros matrix val name fuel body c P loc.
    cbn [run actions enter].
    apply (uniform_scopes_restore matrix val name fuel body c).
  - intros ext param val l c. cbn. unfold bind, log_of.
    destruct (read_through_null ext GL_TEXTURE_2D param c) as [[[] c1] t1].
    cbn. now rewrite app_nil_r.
Qed.

(** C10, as the header implements it.  For a mode-switched macro in either
    mode, a slot that is not among the slots the macro addresses holds
    after the scope what it held at entry, provided the body preserves it,
    and every call of the enter action and of the exit action writes slots of
    the macro only (for [_unset_glFrontFace], which enters through
    [glFrontface], relative to what that name is declared to be).  A uniform
    scope writes uniform values only: a slot that is no uniform value is
    preserved in the same way, and so is a uniform value other than the
    sixteen floats, or the float, at the location of the name in the program
    of the entry, when the body also leaves the current program and that
    location as they were.  The enter action of [scope_glTex2DParameter]
    with a vector suffix, handed an array, writes components of the
    parameter only. *)
Theorem scope_frame :
  (forall m s fuel body c sl,
     frontface_like glFrontface ->
     ~ In sl (slots_of s) ->
     (forall c', get (ctx_of (body c')) sl = get c' sl) ->
     get (ctx_of (stmt (expand m s) (S (S fuel)) body c)) sl = get c sl /\
     Forall (fun e => incl (written e) (slots_of s))
            (log_of (init (projT2 (expand m s)) c)) /\
     (forall l c', Forall (fun e => incl (written e) (slots_of s))
                          (log_of (step (projT2 (expand m s)) l c')))) /\
  (forall (m : mode) matrix val name fuel body c sl,
     let P := get c CurrentProgram in
     let loc := uniform_location c P name in
     let program_kept :=
       (forall c', get (ctx_of (body c')) CurrentProgram = get c' CurrentProgram) /\
       (forall c', uniform_location (ctx_of (body c')) P name = uniform_location c' P name) in
     (forall c', get (ctx_of (body c')) sl = get c' sl) ->
     (is_uniform_value sl = false \/
      (program_kept /\ forall k, (k < 16)%nat -> sl <> UniformValue P loc k) ->
      get (ctx_of (run_scope (@use_glUniformMatrix4fv m matrix name) (S (S fuel)) body c)) sl
      = get c sl) /\
     (is_uniform_value sl = false \/ (program_kept /\ sl <> UniformValue P loc 0) ->
      get (ctx_of (run_scope (@use_glUniformfv m val name) (S (S fuel)) body c)) sl
      = get c sl)) /\
  (forall ext param data c sl,
     (forall k, sl <> TexParameter GL_TEXTURE_2D param k) ->
     get (ctx_of (enter (actions_of (scope_glTex2DParameter_v ext param (to_array data))) c)) sl
     = get c sl).
Proof.
  split; [ | split ].
  - intros m s fuel body c sl Hf Hsl Hb.
    split; [ | split ].
    + rewrite stmt_guarded. apply guarded_frame; [ | | exact Hb ].
      * intros c'. destruct m, s; cbn [slots_of] in Hsl; split_target; cbn; other_target.
        all: try (frame_simpl Hsl; reflexivity).
        unfold bind, ctx_of. destruct (Hf orient c') as [Hfr _]. unfold ctx_of in Hfr.
        destruct (glFrontface orient c') as [[? ?] ?]; cbn in *.
        apply Hfr. intros ->. apply Hsl. cbn. auto.
      * intros l c'. destruct m, s; cbn [slots_of] in Hsl; split_target;
          cbn in l; split_locals; cbn; other_target.
        all: try match goal with |- context [negb ?b] => destruct (negb b); cbn end.
        all: frame_simpl Hsl; reflexivity.
    + destruct m, s; cbn [slots_of]; split_target; cbn; other_target.
      all: try (incl_simpl; fail).
      unfold bind, log_of. destruct (Hf orient c) as [_ Hfl]. unfold log_of in Hfl.
      destruct (glFrontface orient c) as [[? ?] ?]; cbn in *. now rewrite app_nil_r.
    + intros l c'. destruct m, s; cbn [slots_of]; split_target; cbn in l; split_locals; cbn;
        other_target.
      all: try match goal with |- context [negb ?b] => destruct (negb b); cbn end.
      all: incl_simpl.
  - intros m matrix val name fuel body c sl P loc program_kept Hb.
    subst program_kept P loc. cbn [run]. split.
    + intros H. apply uniform_matrix_frame; [ exact Hb | ].
      destruct H as [H | [[HP Hl] Hne]]; [ now left | right; auto ].
    + intros H. apply uniform_scalar_frame; [ exact Hb | ].
      destruct H as [H | [[HP Hl] Hne]]; [ now left | right; auto ].
  - intros ext param data c sl Hsl. cbn -[firstn].
    apply set_components_other_upto. intros j _ E. now apply (Hsl j).
Qed.

(** C4.  Scopes opened one after another around the same block, of any
    kind the header offers whose exit is defined, are entered in the order
    they are written and left in the reverse order, the last opened first
    ([lifo], which also says which exit actions run when the body does not
    fall through).  The exit
    action of each scope works on what that scope captured itself: in
    RESTORE mode it writes the value the slot held when that scope was
    entered, whatever the context holds by then, and in RESET mode the reset
    value.  Two program scopes in RESTORE mode around one block end with the
    program of the outer scope and then the program of before; two RESET
    scopes make their zero calls in reverse order. *)
Theorem nested_scopes_exit_in_reverse :
  (forall (m : mode) (u : scope_use m) us fuel body c,
     forallb exit_defined (u :: us) = true ->
     nest_of (S (S fuel)) (u :: us) body c = lifo (map actions_of (u :: us)) body c) /\
  (forall s sl c c',
     In sl (restored_slots s) ->
     get (ctx_of (leave (actions_of (@use_macro RESTORE s))
                        (result_of (enter (actions_of (@use_macro RESTORE s)) c)) c')) sl
     = get c sl) /\
  (forall s sl l c',
     In sl (reset_slots s) ->
     get (ctx_of (leave (actions_of (@use_macro RESET s)) l c')) sl = reset_value s) /\
  (forall p q fuel body c,
     let scopes := [@use_macro RESTORE (scope_glUseProgram p);
                    @use_macro RESTORE (scope_glUseProgram q)] in
     let inside := body (ctx_of (enter_all (map actions_of scopes) c)) in
     falls_through (result_of inside) = true ->
     log_of (nest_of (S (S fuel)) scopes body c) =
       [Call_glGetIntegerv GL_CURRENT_PROGRAM; Call_glUseProgram p;
        Call_glGetIntegerv GL_CURRENT_PROGRAM; Call_glUseProgram q]
       ++ log_of inside
       ++ [Call_glUseProgram p; Call_glUseProgram (get c CurrentProgram)]) /\
  (forall p vao fuel body c,
     let scopes := [@use_macro RESET (scope_glUseProgram p);
                    @use_macro RESET (scope_glBindVertexArray vao)] in
     let inside := body (ctx_of (enter_all (map actions_of scopes) c)) in
     falls_through (result_of inside) = true ->
     log_of (nest_of (S (S fuel)) scopes body c) =
       [Call_glUseProgram p; Call_glBindVertexArray vao]
       ++ log_of inside
       ++ [Call_glBindVertexArray 0; Call_glUseProgram 0]).
Proof.
  split; [ | split; [ | split; [ | split ] ] ].
  - intros m u us fuel body c _. apply nest_scopes_lifo.
  - intros s sl c c' H. cbn [actions header_actions enter leave].
    now apply restore_step_restores.
  - intros s sl l c' H. cbn [actions header_actions enter leave] in *.
    now apply reset_step_resets.
  - intros p q fuel body c scopes inside Hb. subst scopes inside.
    rewrite nest_scopes_lifo. revert Hb.
    unfold lifo, log_of, ctx_of, result_of. cbn [map enter_all actions header_actions].
    cbn. slot_simpl.
    match goal with
    | |- context [body ?x] => destruct (body x) as [[o c2] t2]
    end.
    cbn. destruct o; try discriminate; intros _; cbn; rewrite <- ?app_assoc; reflexivity.
  - intros p vao fuel body c scopes inside Hb. subst scopes inside.
    rewrite nest_scopes_lifo. revert Hb.
    unfold lifo, log_of, ctx_of, result_of. cbn [map enter_all actions header_actions].
    cbn.
    match goal with
    | |- context [body ?x] => destruct (body x) as [[o c2] t2]
    end.
    cbn. destruct o; try discriminate; intros _; cbn; rewrite <- ?app_assoc; reflexivity.
Qed.

(** C7, as the header implements it.  A uniform scope asks for the current
    program once, on entry, and keeps the handle.  With that handle it looks
    the location up from the name twice on entry (for the read-back and for
    the write) and once more on exit, never keeping a location; the entry
    reads the current value of the uniform back.  The exit writes that old
    value at the location found on exit, in whatever program is current
    then; the uniform holds its old value again when the body left the
    current program and the location as they were. *)
Theorem uniform_scope_lookups matrix val name fuel body c :
  let P := get c CurrentProgram in
  let loc := uniform_location c P name in
  (let enter := uniform_enter stack
                  (fun prog => uniformMatrix4fv_inner stack prog matrix name) in
   let c2 := ctx_of (body (ctx_of (enter c))) in
   let mat := fst (snd (result_of (enter c))) in
   let r := scope_glUniformMatrix4fv stack matrix name (S (S fuel)) body c in
   falls_through (result_of (body (ctx_of (enter c)))) = true ->
   log_of r =
     [Call_glGetIntegerv GL_CURRENT_PROGRAM;
      Call_glGetUniformLocation P name; Call_glGetUniformfv P loc;
      Call_glGetUniformLocation P name; Call_glUniformMatrix4fv loc 1 GL_FALSE matrix]
     ++ log_of (body (ctx_of (enter c)))
     ++ [Call_glGetUniformLocation P name;
         Call_glUniformMatrix4fv (uniform_location c2 P name) 1 GL_FALSE mat] /\
   (get c2 CurrentProgram = P -> uniform_location c2 P name = loc ->
    uniform_components c P loc = 16%nat ->
    forall k, (k < 16)%nat ->
      get (ctx_of r) (UniformValue P loc k) = get c (UniformValue P loc k))) /\
  (let enter := uniform_enter stack (fun prog => uniformfv_inner stack prog val name) in
   let c2 := ctx_of (body (ctx_of (enter c))) in
   let old_val := fst (snd (result_of (enter c))) in
   let r := scope_glUniformfv stack val name (S (S fuel)) body c in
   falls_through (result_of (body (ctx_of (enter c)))) = true ->
   log_of r =
     [Call_glGetIntegerv GL_CURRENT_PROGRAM;
      Call_glGetUniformLocation P name; Call_glGetUniformfv P loc;
      Call_glGetUniformLocation P name; Call_glUniform1f loc val]
     ++ log_of (body (ctx_of (enter c)))
     ++ [Call_glGetUniformLocation P name;
         Call_glUniform1f (uniform_location c2 P name) old_val] /\
   (get c2 CurrentProgram = P -> uniform_location c2 P name = loc ->
    uniform_components c P loc = 1%nat ->
    get (ctx_of r) (UniformValue P loc 0) = get c (UniformValue P loc 0))).
Proof.
  intros P loc. split.
  - intros enter c2 mat r Hb. subst r.
    rewrite scope_glUniformMatrix4fv_guarded.
    fold enter. rewrite (guarded_falls_through _ _ _ _ Hb).
    cbn [ctx_of log_of fst snd]. fold c2.
    split; [ reflexivity | ].
    intros HP Hloc H16 k Hk.
    clearbody c2. clear Hb.
    subst mat enter P loc. cbn. cbn in HP, Hloc. rewrite HP, Hloc, H16.
    do 16 (destruct k as [| k]; [ cbn; now slot_simpl | ]). lia.
  - intros enter c2 old_val r Hb. subst r.
    rewrite scope_glUniformfv_guarded.
    fold enter. rewrite (guarded_falls_through _ _ _ _ Hb).
    cbn [ctx_of log_of fst snd]. fold c2.
    split; [ reflexivity | ].
    intros HP Hloc H1.
    clearbody c2. clear Hb.
    subst old_val enter P loc. cbn. cbn in HP, Hloc. rewrite HP, Hloc, H1.
    cbn. now slot_simpl.
Qed.

(** C8.  The viewport scope reads the four components with one query on
    entry; when the body falls through or continues, RESTORE mode sets
    exactly those four components again on exit and RESET mode sets the
    rectangle (0,0,0,0).  With the viewport at (0,0,800,600),
    [scope_glViewport(10,10,100,100) { }] in RESTORE mode leaves
    (0,0,800,600). *)
Theorem viewport_scope x y w h fuel body c :
  falls_through (result_of (body (ctx_of (glViewport x y w h c)))) = true ->
  let restore := stmt (expand RESTORE (scope_glViewport x y w h)) (S (S fuel)) body c in
  let reset := stmt (expand RESET (scope_glViewport x y w h)) (S (S fuel)) body c in
  log_of restore =
    [Call_glGetIntegerv GL_VIEWPORT; Call_glViewport x y w h]
    ++ log_of (body (ctx_of (glViewport x y w h c)))
    ++ [Call_glViewport (get c (Viewport 0)) (get c (Viewport 1))
                        (get c (Viewport 2)) (get c (Viewport 3))] /\
  (forall k, (k < 4)%nat -> get (ctx_of restore) (Viewport k) = get c (Viewport k)) /\
  (forall k, (k < 4)%nat -> get (ctx_of reset) (Viewport k) = 0) /\
  get_components Viewport 4
    (ctx_of (stmt (expand RESTORE (scope_glViewport 10 10 100 100)) (S (S fuel)) empty_body
                  (set_components Viewport 0 [0; 0; 800; 600] c)))
  = [0; 0; 800; 600].
Proof.
  intros Hb restore reset. subst restore reset.
  rewrite !stmt_guarded.
  rewrite !guarded_falls_through by exact Hb.
  cbn [ctx_of log_of fst snd].
  generalize (ctx_of (body (ctx_of (glViewport x y w h c)))) as c2.
  intros c2. clear Hb.
  split; [ reflexivity | split; [ | split ] ].
  - intros k Hk. do 4 (destruct k as [| k]; [ cbn; now slot_simpl | ]). lia.
  - intros k Hk. do 4 (destruct k as [| k]; [ cbn; now slot_simpl | ]). lia.
  - cbn. now slot_simpl.
Qed.

(** C9.  In RESTORE mode the shader-storage scope makes one query, of the
    generic shader-storage binding; the binding of index [binding] is never
    queried.  When the body falls through or continues, the exit writes the
    queried value to the indexed binding point and to the generic one, so
    that the indexed binding point ends with the generic binding of before
    the scope, whatever it held itself. *)
Theorem ssbo_scope ssbo binding fuel body c :
  let enter := init (projT2 (expand RESTORE (scope_glBindSSBO ssbo binding))) in
  falls_through (result_of (body (ctx_of (enter c)))) = true ->
  let r := stmt (expand RESTORE (scope_glBindSSBO ssbo binding)) (S (S fuel)) body c in
  let old := get c (BufferBinding GL_SHADER_STORAGE_BUFFER) in
  log_of r =
    [Call_glGetIntegerv GL_SHADER_STORAGE_BUFFER_BINDING;
     Call_glBindBuffer GL_SHADER_STORAGE_BUFFER ssbo;
     Call_glBindBufferBase GL_SHADER_STORAGE_BUFFER binding ssbo]
    ++ log_of (body (ctx_of (enter c)))
    ++ [Call_glBindBufferBase GL_SHADER_STORAGE_BUFFER binding old;
        Call_glBindBuffer GL_SHADER_STORAGE_BUFFER old] /\
  get (ctx_of r) (BufferBaseBinding GL_SHADER_STORAGE_BUFFER binding) = old /\
  get (ctx_of r) (BufferBinding GL_SHADER_STORAGE_BUFFER) = old.
Proof.
  intros enter Hb r old. subst enter r old.
  rewrite stmt_guarded, (guarded_falls_through _ _ _ _ Hb).
  cbn [ctx_of log_of fst snd].
  generalize
    (ctx_of (body (ctx_of (init (projT2 (expand RESTORE (scope_glBindSSBO ssbo binding)))
                                c)))) as c2.
  intros c2. clear Hb.
  split; [ reflexivity | split; cbn; now slot_simpl ].
Qed.

End Properties.

Lemma transient_name_line var s1 s2 :
  transient_name var s1 = transient_name var s2 <-> site_line s1 = site_line s2.
Proof.
  unfold transient_name, UQ, CONCAT, TOKEN_PASTE. split.
  - intros H. apply LINE_token_inj. eapply append_inj_r. exact H.
  - intros ->. reflexivity.
Qed.

Lemma length_append_string (a b : string) :
  String.length (a ++ b) = (String.length a + String.length b)%nat.
Proof. induction a as [| ch a IH]; cbn; [ reflexivity | now rewrite IH ]. Qed.

Lemma append_inj_l (a b s : string) : (a ++ s)%string = (b ++ s)%string -> a = b.
Proof.
  revert b. induction a as [| ch a IH]; intros b H.
  - destruct b as [| ch' b]; [ reflexivity | ].
    apply (f_equal String.length) in H. cbn in H. rewrite length_append_string in H. lia.
  - destruct b as [| ch' b].
    + apply (f_equal String.length) in H. cbn in H. rewrite length_append_string in H. lia.
    + cbn in H. injection H as -> H. f_equal. now apply IH.
Qed.

(** Case analysis on a scope of a RESET build. *)
Lemma scope_use_RESET_cases (P : scope_use RESET -> Prop) :
  (forall s, P (use_macro s)) ->
  (forall ext param val, P (scope_glTex2DParameter_v ext param val)) ->
  (forall matrix name, P (use_glUniformMatrix4fv matrix name)) ->
  (forall val name, P (use_glUniformfv val name)) ->
  forall u, P u.
Proof.
  intros H1 H2 H3 H4 u.
  refine (match u as u' in scope_use m'
                return (match m' as m'' return scope_use m'' -> Prop with
                        | RESET => P
                        | RESTORE => fun _ => True
                        end u')
          with
          | @use_macro m' s => _
          | scope_glTex2DParameter_v ext param val => _
          | @use_glUniformMatrix4fv m' matrix name => _
          | @use_glUniformfv m' val name => _
          end).
  - destruct m'; [ exact I | apply H1 ].
  - apply H2.
  - destruct m'; [ exact I | apply H3 ].
  - destruct m'; [ exact I | apply H4 ].
Qed.

Lemma scope_use_RESTORE_cases (P : scope_use RESTORE -> Prop) :
  (forall s, P (use_macro s)) ->
  (forall matrix name, P (use_glUniformMatrix4fv matrix name)) ->
  (forall val name, P (use_glUniformfv val name)) ->
  forall u, P u.
Proof.
  intros H1 H3 H4 u.
  refine (match u as u' in scope_use m'
                return (match m' as m'' return scope_use m'' -> Prop with
                        | RESTORE => P
                        | RESET => fun _ => True
                        end u')
          with
          | @use_macro m' s => _
          | scope_glTex2DParameter_v ext param val => _
          | @use_glUniformMatrix4fv m' matrix name => _
          | @use_glUniformfv m' val name => _
          end).
  - destruct m'; [ apply H1 | exact I ].
  - exact I.
  - destruct m'; [ apply H3 | exact I ].
  - destruct m'; [ apply H4 | exact I ].
Qed.

(** Two uses of one macro declare the same variables, but for the macro
    that names its variable after its first argument. *)
Lemma declared_by_name {m : mode} (u1 u2 : scope_use m) arg1 arg2 :
  use_name u1 = use_name u2 ->
  names_first_argument u1 = false ->
  declared u1 arg1 = declared u2 arg2.
Proof.
  destruct m.
  - revert u2. pattern u1. apply scope_use_RESTORE_cases; clear u1.
    + intros s1 u2. pattern u2. apply scope_use_RESTORE_cases; clear u2.
      * intros s2 H _. destruct s1, s2; try discriminate H; reflexivity.
      * intros matrix name H _. destruct s1; discriminate H.
      * intros val name H _. destruct s1; discriminate H.
    + intros matrix name u2. pattern u2. apply scope_use_RESTORE_cases; clear u2.
      * intros s2 H _. destruct s2; discriminate H.
      * reflexivity.
      * intros val name' H _. discriminate H.
    + intros val name u2. pattern u2. apply scope_use_RESTORE_cases; clear u2.
      * intros s2 H _. destruct s2; discriminate H.
      * intros matrix name' H _. discriminate H.
      * reflexivity.
  - revert u2. pattern u1. apply scope_use_RESET_cases; clear u1.
    + intros s1 u2. pattern u2. apply scope_use_RESET_cases; clear u2.
      * intros s2 H Hn. destruct s1, s2; try discriminate H; try discriminate Hn; reflexivity.
      * intros ext param val H Hn. destruct s1; try discriminate H; reflexivity.
      * intros matrix name H _. destruct s1; discriminate H.
      * intros val name H _. destruct s1; discriminate H.
    + intros ext param val u2. pattern u2. apply scope_use_RESET_cases; clear u2.
      * intros s2 H _. destruct s2; try discriminate H; reflexivity.
      * reflexivity.
      * intros matrix name H _. discriminate H.
      * intros val' name H _. discriminate H.
    + intros matrix name u2. pattern u2. apply scope_use_RESET_cases; clear u2.
      * intros s2 H _. destruct s2; discriminate H.
      * intros ext param val H _. discriminate H.
      * reflexivity.
      * intros val name' H _. discriminate H.
    + intros val name u2. pattern u2. apply scope_use_RESET_cases; clear u2.
      * intros s2 H _. destruct s2; discriminate H.
      * intros ext param val' H _. discriminate H.
      * intros matrix name' H _. discriminate H.
      * reflexivity.
Qed.

Lemma declared_first {m : mode} (u : scope_use m) arg :
  exists var vars, declared u arg = var :: vars.
Proof.
  destruct u as [m s | ext param val | m matrix name | m val name].
  - destruct m, s; cbn; eauto.
  - cbn; eauto.
  - cbn; eauto.
  - cbn; eauto.
Qed.

(** C5, as the header implements it.  The transient name of a variable is
    the variable's name followed by the decimal line number of the
    invocation: two invocations give one variable the same transient name
    exactly when they sit on the same line.  The variables are fixed by the
    macro, so two invocations of one macro declare the same transient names
    exactly when they sit on the same line; the exception is
    [scope_glBindSSBO] in RESET mode, which names its only transient after
    its first argument, so that two of them on one line declare the same
    name exactly when their first arguments are spelled alike. *)
Theorem transient_names_by_line :
  (forall var s1 s2,
     transient_name var s1 = transient_name var s2 <-> site_line s1 = site_line s2) /\
  (forall (m : mode) (i1 i2 : invocation m),
     use_name (used i1) = use_name (used i2) ->
     names_first_argument (used i1) = false ->
     transients i1 <> [] /\
     (transients i1 = transients i2 <->
      site_line (at_site i1) = site_line (at_site i2))) /\
  (forall ssbo1 binding1 ssbo2 binding2 arg1 arg2 s1 s2,
     let i1 := mk_invocation (@use_macro RESET (scope_glBindSSBO ssbo1 binding1)) arg1 s1 in
     let i2 := mk_invocation (@use_macro RESET (scope_glBindSSBO ssbo2 binding2)) arg2 s2 in
     site_line s1 = site_line s2 ->
     transients i1 = [transient_name arg1 s1] /\
     (transients i1 = transients i2 <-> arg1 = arg2)).
Proof.
  split; [ | split ].
  - apply transient_name_line.
  - intros m [u1 arg1 s1] [u2 arg2 s2] Hname Hfirst.
    unfold transients. cbn [used first_argument at_site] in *.
    rewrite (declared_by_name u1 u2 arg1 arg2 Hname Hfirst).
    destruct (declared_first u2 arg2) as [var [vars ->]].
    split; [ discriminate | ]. split.
    + intros H. cbn [map] in H. injection H as H _.
      now apply (transient_name_line var).
    + intros H. apply map_ext. intros v. now apply transient_name_line.
  - intros ssbo1 binding1 ssbo2 binding2 arg1 arg2 s1 s2 i1 i2 Hline.
    subst i1 i2. unfold transients. cbn.
    split; [ reflexivity | ]. split.
    + intros H. injection H as H. unfold transient_name, UQ, CONCAT, TOKEN_PASTE in H.
      rewrite Hline in H. now apply append_inj_l in H.
    + intros ->. unfold transient_name. now rewrite Hline.
Qed.

(** C6.  The switch of [_scope_gl_map_texture_target_to_binding] maps each
    of the eleven texture targets to its binding name and every other value
    to 0. *)
Theorem texture_target_lookup :
  _scope_gl_map_texture_target_to_binding GL_TEXTURE_1D = GL_TEXTURE_BINDING_1D /\
  _scope_gl_map_texture_target_to_binding GL_TEXTURE_2D = GL_TEXTURE_BINDING_2D /\
  _scope_gl_map_texture_target_to_binding GL_TEXTURE_3D = GL_TEXTURE_BINDING_3D /\
  _scope_gl_map_texture_target_to_binding GL_TEXTURE_1D_ARRAY
    = GL_TEXTURE_BINDING_1D_ARRAY /\
  _scope_gl_map_texture_target_to_binding GL_TEXTURE_2D_ARRAY
    = GL_TEXTURE_BINDING_2D_ARRAY /\
  _scope_gl_map_texture_target_to_binding GL_TEXTURE_RECTANGLE
    = GL_TEXTURE_BINDING_RECTANGLE /\
  _scope_gl_map_texture_target_to_binding GL_TEXTURE_CUBE_MAP
    = GL_TEXTURE_BINDING_CUBE_MAP /\
  _scope_gl_map_texture_target_to_binding GL_TEXTURE_CUBE_MAP_ARRAY
    = GL_TEXTURE_BINDING_CUBE_MAP_ARRAY /\
  _scope_gl_map_texture_target_to_binding GL_TEXTURE_BUFFER = GL_TEXTURE_BINDING_BUFFER /\
  _scope_gl_map_texture_target_to_binding GL_TEXTURE_2D_MULTISAMPLE
    = GL_TEXTURE_BINDING_2D_MULTISAMPLE /\
  _scope_gl_map_texture_target_to_binding GL_TEXTURE_2D_MULTISAMPLE_ARRAY
    = GL_TEXTURE_BINDING_2D_MULTISAMPLE_ARRAY /\
  forall target,
    ~ In target [GL_TEXTURE_1D; GL_TEXTURE_2D; GL_TEXTURE_3D; GL_TEXTURE_1D_ARRAY;
                 GL_TEXTURE_2D_ARRAY; GL_TEXTURE_RECTANGLE; GL_TEXTURE_CUBE_MAP;
                 GL_TEXTURE_CUBE_MAP_ARRAY; GL_TEXTURE_BUFFER; GL_TEXTURE_2D_MULTISAMPLE;
                 GL_TEXTURE_2D_MULTISAMPLE_ARRAY] ->
    _scope_gl_map_texture_target_to_binding target = 0.
Proof.
  repeat (split; [ reflexivity | ]).
  intros target H. unfold _scope_gl_map_texture_target_to_binding.
  repeat match goal with
         | |- context [if ?a =? ?b then _ else _] =>
             destruct (Z.eqb_spec a b) as [E | _];
             [ exfalso; apply H; rewrite E; cbn; tauto | ]
         end.
  reflexivity.
Qed.

(** ** Concrete runs *)

(** C1: a [break] in the body ends the macro's own loop before its step,
    and a [return] leaves it: the exit call is not made and program 9 stays
    in use. *)
Lemma exit_skipped_on_break_and_return :
  log_of (stmt (plain_unit RESET (scope_glUseProgram 9)) 2 draw_then_break program_3)
    = [Call_glUseProgram 9; Call_glDrawArrays GL_TRIANGLES 0 6] /\
  get (ctx_of (stmt (plain_unit RESET (scope_glUseProgram 9)) 2 draw_then_break program_3))
      CurrentProgram = 9 /\
  log_of (stmt (plain_unit RESTORE (scope_glUseProgram 9)) 2 draw_then_return program_3)
    = [Call_glGetIntegerv GL_CURRENT_PROGRAM; Call_glUseProgram 9;
       Call_glDrawArrays GL_TRIANGLES 0 6] /\
  get (ctx_of (stmt (plain_unit RESTORE (scope_glUseProgram 9)) 2 draw_then_return program_3))
      CurrentProgram = 9 /\
  result_of (stmt (plain_unit RESTORE (scope_glUseProgram 9)) 2 draw_then_return program_3)
    = Return.
Proof. repeat split. Qed.

(** C2: in RESTORE mode the framebuffer-texture scope leaves the attachment
    point empty, not with texture 5 that was attached before. *)
Lemma restore_mode_detaches_attachment :
  get texture_5_attached (AttachmentObject GL_FRAMEBUFFER GL_COLOR_ATTACHMENT0) = 5 /\
  get (ctx_of (stmt (plain_unit RESTORE
                       (scope_glFramebufferTexture GL_FRAMEBUFFER GL_COLOR_ATTACHMENT0
                                                   GL_TEXTURE_2D 7 0))
                    2 empty_body texture_5_attached))
      (AttachmentObject GL_FRAMEBUFFER GL_COLOR_ATTACHMENT0) = 0.
Proof. split; reflexivity. Qed.

(** C3: in RESET mode the slot equals its old value when that was the reset
    value already, [scope_glDisable] leaves the capability enabled, and a
    uniform scope of a RESET build leaves the uniform with its old value,
    1100. *)
Lemma reset_mode_can_equal_old_value :
  get blank_context CurrentProgram = 0 /\
  get (ctx_of (stmt (plain_unit RESET (scope_glUseProgram 9)) 2 empty_body blank_context))
      CurrentProgram = 0 /\
  get (ctx_of (stmt (plain_unit RESET (scope_glDisable GL_BLEND)) 2 empty_body blank_context))
      (Capability GL_BLEND) = GL_TRUE /\
  get two_programs (UniformValue 1 1 0) = 1100 /\
  get (ctx_of (plain_run (@use_glUniformfv RESET 7 "alpha") 2 draw_body two_programs))
      (UniformValue 1 1 0) = 1100.
Proof. repeat split. Qed.

(** C5: two scopes of one kind on line 12 share their transient name, and
    so do [a1] on line 2 and [a] on line 12. *)
Lemma same_line_same_transient :
  mk_site 12 1 <> mk_site 12 40 /\
  transient_name "old_tex" (mk_site 12 1) = transient_name "old_tex" (mk_site 12 40) /\
  UQ "a1" 2 = UQ "a" 12.
Proof. split; [ discriminate | split; reflexivity ]. Qed.

(** C7: the body selects program 2; on exit the location is asked of
    program 1, the program of the entry, and the old value goes to the
    uniform of program 2, while the uniform of program 1 keeps the new
    value. *)
Lemma uniform_exit_uses_entry_program :
  get (ctx_of (scope_glUniformfv zero_stack 7 "alpha" 2 (switch_program_body 2) two_programs))
      CurrentProgram = 2 /\
  log_of (scope_glUniformfv zero_stack 7 "alpha" 2 (switch_program_body 2) two_programs)
    = [Call_glGetIntegerv GL_CURRENT_PROGRAM;
       Call_glGetUniformLocation 1 "alpha"; Call_glGetUniformfv 1 1;
       Call_glGetUniformLocation 1 "alpha"; Call_glUniform1f 1 7;
       Call_glUseProgram 2;
       Call_glGetUniformLocation 1 "alpha"; Call_glUniform1f 1 1100] /\
  get two_programs (UniformValue 1 1 0) = 1100 /\
  get (ctx_of (scope_glUniformfv zero_stack 7 "alpha" 2 (switch_program_body 2) two_programs))
      (UniformValue 1 1 0) = 7 /\
  get (ctx_of (scope_glUniformfv zero_stack 7 "alpha" 2 (switch_program_body 2) two_programs))
      (UniformValue 2 1 0) = 1100.
Proof. repeat split. Qed.

(** C10: the body selects program 2 and leaves the uniform "alpha" of
    program 2 as it is; the exit of the uniform scope, entered under program
    1, writes its old value there. *)
Lemma uniform_scope_writes_preserved_slot :
  (forall c', get (ctx_of (switch_program_body 2 c')) (UniformValue 2 1 0)
              = get c' (UniformValue 2 1 0)) /\
  get two_programs (UniformValue 2 1 0) = 2100 /\
  get (ctx_of (scope_glUniformfv zero_stack 7 "alpha" 2 (switch_program_body 2) two_programs))
      (UniformValue 2 1 0) = 1100.
Proof.
  split; [ | split; reflexivity ].
  intros c'. cbn. apply get_set_other. discriminate.
Qed.

(** The three RESTORE macros that [restored_slots] leaves out.
    [_restore_glBindBuffer] binds what [vbo] names and ends with what
    [old_vbo] names; [_restore_glBindFramebuffer] ends with what its
    local held before the query that does not write it; [_restore_glEnable]
    enables a capability that was disabled when the local held leftovers. *)
Example restore_glBindBuffer_run :
  log_of (stmt (plain_unit RESTORE (scope_glBindBuffer GL_ARRAY_BUFFER 5)) 2 empty_body
               blank_context)
  = [Call_glGetIntegerv GL_BUFFER_BINDING; Call_glBindBuffer GL_ARRAY_BUFFER 11;
     Call_glBindBuffer GL_ARRAY_BUFFER 12].
Proof. reflexivity. Qed.

Example restore_glBindFramebuffer_run :
  log_of (stmt (_scope dirty_stack 0 0 glFrontFace null_ignored RESTORE
                       (scope_glBindFramebuffer GL_FRAMEBUFFER 5))
               2 empty_body blank_context)
  = [Call_glGetIntegerv GL_FRAMEBUFFER; Call_glBindFramebuffer GL_FRAMEBUFFER 5;
     Call_glBindFramebuffer GL_FRAMEBUFFER 0xFFFFFFFF].
Proof. reflexivity. Qed.

Example restore_glEnable_dirty_run :
  enabled blank_context GL_BLEND = false /\
  enabled (ctx_of (stmt (_scope dirty_stack 0 0 glFrontFace null_ignored RESTORE (scope_glEnable GL_BLEND))
                        2 empty_body blank_context)) GL_BLEND = true.
Proof. split; reflexivity. Qed.

(** [_restore_glTex2DParameter] with the suffix [f]: the minification
    filter holds GL_NEAREST as a float.  With [val] an int, the local is an
    int that receives the bits of that float, and the exit converts the int
    to float: the parameter ends with another value.  With [val] a float it
    ends with the value of before. *)
Example restore_glTex2DParameter_run :
  let before := set (TexParameter GL_TEXTURE_2D GL_TEXTURE_MIN_FILTER 0)
                    (float_of_int GL_NEAREST) blank_context in
  float_of_int GL_NEAREST = 1175977984 /\
  get (ctx_of (stmt (plain_unit RESTORE
                       (scope_glTex2DParameter ext_f GL_TEXTURE_MIN_FILTER type_int GL_LINEAR))
                    2 empty_body before))
      (TexParameter GL_TEXTURE_2D GL_TEXTURE_MIN_FILTER 0) = 1317810176 /\
  get (ctx_of (stmt (plain_unit RESTORE
                       (scope_glTex2DParameter ext_f GL_TEXTURE_MIN_FILTER type_float
                                               (float_of_int GL_LINEAR)))
                    2 empty_body before))
      (TexParameter GL_TEXTURE_2D GL_TEXTURE_MIN_FILTER 0) = 1175977984.
Proof. repeat split. Qed.

(** [_unset_glTex2DParameter] with the suffix [fv]: the exit call is made
    with the null pointer; under an implementation that ignores that call the
    border colour keeps its new value. *)
Example unset_glTex2DParameter_fv_run :
  let scope := scope_glTex2DParameter_v ext_fv GL_TEXTURE_BORDER_COLOR (to_array [1; 2; 3; 4]) in
  log_of (plain_run scope 2 empty_body blank_context)
  = [Call_glTexParameterv ext_fv GL_TEXTURE_2D GL_TEXTURE_BORDER_COLOR (to_array [1; 2; 3; 4]);
     Call_glTexParameterv ext_fv GL_TEXTURE_2D GL_TEXTURE_BORDER_COLOR NULL] /\
  get (ctx_of (plain_run scope 2 empty_body blank_context))
      (TexParameter GL_TEXTURE_2D GL_TEXTURE_BORDER_COLOR 2) = 3.
Proof. split; reflexivity. Qed.

(** Scenarios 1, 2 and 5 of the testable properties, RESTORE mode. *)
Example texture_2d_scenario :
  get (entered (plain_unit RESTORE (scope_glBindTexture2D 7)) blank_context)
      (TextureBinding GL_TEXTURE_2D) = 7 /\
  get (ctx_of (stmt (plain_unit RESTORE (scope_glBindTexture2D 7)) 2 draw_body blank_context))
      (TextureBinding GL_TEXTURE_2D) = 0.
Proof. split; reflexivity. Qed.

Example blend_scenario :
  enabled (entered (plain_unit RESTORE (scope_glEnable GL_BLEND)) blank_context) GL_BLEND
    = true /\
  enabled (ctx_of (stmt (plain_unit RESTORE (scope_glEnable GL_BLEND)) 2 draw_body
                        blank_context)) GL_BLEND = false.
Proof. split; reflexivity. Qed.

Example nested_textures_scenario :
  log_of (plain_nest 2 [@use_macro RESTORE (scope_glBindTexture GL_TEXTURE_2D 7);
                        use_macro (scope_glBindTexture GL_TEXTURE_3D 9)]
                     draw_body blank_context)
  = [Call_glGetIntegerv GL_TEXTURE_BINDING_2D; Call_glBindTexture GL_TEXTURE_2D 7;
     Call_glGetIntegerv GL_TEXTURE_BINDING_3D; Call_glBindTexture GL_TEXTURE_3D 9;
     Call_glDrawArrays GL_TRIANGLES 0 6;
     Call_glBindTexture GL_TEXTURE_3D 0; Call_glBindTexture GL_TEXTURE_2D 0].
Proof. reflexivity. Qed.

(** Two scopes on the same slot: each restores the value it captured, the
    inner one program 9, the outer one program 3. *)
Example nested_programs_scenario :
  log_of (plain_nest 2 [@use_macro RESTORE (scope_glUseProgram 9);
                        use_macro (scope_glUseProgram 5)]
                     draw_body program_3)
  = [Call_glGetIntegerv GL_CURRENT_PROGRAM; Call_glUseProgram 9;
     Call_glGetIntegerv GL_CURRENT_PROGRAM; Call_glUseProgram 5;
     Call_glDrawArrays GL_TRIANGLES 0 6;
     Call_glUseProgram 9; Call_glUseProgram 3].
Proof. reflexivity. Qed.

(** A uniform scope inside a program scope: the uniform of program 2 is set
    and written back before program 1 is selected again. *)
Example nested_uniform_scenario :
  log_of (plain_nest 2 [@use_macro RESTORE (scope_glUseProgram 2); use_glUniformfv 7 "alpha"]
                     draw_body two_programs)
  = [Call_glGetIntegerv GL_CURRENT_PROGRAM; Call_glUseProgram 2;
     Call_glGetIntegerv GL_CURRENT_PROGRAM;
     Call_glGetUniformLocation 2 "alpha"; Call_glGetUniformfv 2 1;
     Call_glGetUniformLocation 2 "alpha"; Call_glUniform1f 1 7;
     Call_glDrawArrays GL_TRIANGLES 0 6;
     Call_glGetUniformLocation 2 "alpha"; Call_glUniform1f 1 2100;
     Call_glUseProgram 1].
Proof. reflexivity. Qed.

(** Two RESET shader-storage scopes on line 12, written with the buffers
    [a] and [b]: their transients are [a12] and [b12]. *)
Example unset_glBindSSBO_transients :
  transients (mk_invocation (@use_macro RESET (scope_glBindSSBO 6 2)) "a" (mk_site 12 1))
  = ["a12"%string] /\
  transients (mk_invocation (@use_macro RESET (scope_glBindSSBO 7 3)) "b" (mk_site 12 40))
  = ["b12"%string] /\
  transients (mk_invocation (@use_macro RESTORE (scope_glBindSSBO 6 2)) "a" (mk_site 12 1))
  = ["old_ssbo12"; "i12"]%string.
Proof. repeat split. Qed.

(** ** Instances *)

Lemma restore_mode_restores_witness :
  (falls_through
     (result_of (draw_body (entered (plain_unit RESTORE (scope_glUseProgram 9)) program_3)))
   = true /\
   get (ctx_of (stmt (plain_unit RESTORE (scope_glUseProgram 9)) 2 draw_body program_3))
       CurrentProgram = get program_3 CurrentProgram) /\
  (zero_stack 0%nat / 256 = 0 /\
   enabled (ctx_of (stmt (plain_unit RESTORE (scope_glEnable GL_BLEND)) 2 draw_body
                         blank_context)) GL_BLEND
   = enabled blank_context GL_BLEND) /\
  get (ctx_of (stmt (plain_unit RESTORE
                       (scope_glFramebufferTexture GL_FRAMEBUFFER GL_COLOR_ATTACHMENT0
                                                   GL_TEXTURE_2D 7 0))
                    2 draw_body texture_5_attached))
      (AttachmentObject GL_FRAMEBUFFER GL_COLOR_ATTACHMENT0) = 0.
Proof.
  split; [ split; [ reflexivity | ] | split; [ split; [ reflexivity | ] | ] ].
  - apply (proj1 (restore_mode_restores zero_stack 11 12 glFrontFace null_ignored
                    (scope_glUseProgram 9) 0 draw_body program_3 eq_refl)).
    left. reflexivity.
  - apply (proj1 (proj2 (restore_mode_restores zero_stack 11 12 glFrontFace null_ignored
                           (scope_glEnable GL_BLEND) 0 draw_body blank_context eq_refl)));
      reflexivity.
  - apply (proj2 (proj2 (restore_mode_restores zero_stack 11 12 glFrontFace null_ignored
                           (scope_glFramebufferTexture GL_FRAMEBUFFER GL_COLOR_ATTACHMENT0
                                                       GL_TEXTURE_2D 7 0)
                           0 draw_body texture_5_attached eq_refl))).
    left. reflexivity.
Defined.

Lemma reset_mode_resets_witness :
  falls_through
    (result_of (draw_body (entered (plain_unit RESET (scope_glDisable GL_BLEND)) blank_context)))
  = true /\
  get (ctx_of (stmt (plain_unit RESET (scope_glDisable GL_BLEND)) 2 draw_body blank_context))
      (Capability GL_BLEND) = GL_TRUE /\
  get (ctx_of (stmt (plain_unit RESET (scope_glUseProgram 9)) 2 empty_body
                    (set CurrentProgram 3 blank_context))) CurrentProgram = 0.
Proof.
  split; [ reflexivity | split ].
  - apply (proj1 (reset_mode_resets zero_stack 11 12 glFrontFace null_ignored)
                 (scope_glDisable GL_BLEND) 0%nat draw_body blank_context eq_refl).
    left. reflexivity.
  - apply (proj1 (proj2 (reset_mode_resets zero_stack 11 12 glFrontFace null_ignored))).
Defined.

Lemma texture_target_lookup_witness :
  _scope_gl_map_texture_target_to_binding GL_FRAMEBUFFER = 0.
Proof.
  apply texture_target_lookup.
  cbn. intros H. repeat (destruct H as [H | H]; [ discriminate H | ]). exact H.
Defined.

Lemma uniform_scope_lookups_witness :
  falls_through
    (result_of (draw_body
       (ctx_of (uniform_enter zero_stack
                  (fun prog => uniformMatrix4fv_inner zero_stack prog some_matrix "mvp")
                  two_programs)))) = true /\
  get (ctx_of (scope_glUniformMatrix4fv zero_stack some_matrix "mvp" 2 draw_body two_programs))
      (UniformValue 1 0 5) = get two_programs (UniformValue 1 0 5) /\
  get (ctx_of (scope_glUniformfv zero_stack 7 "alpha" 2 draw_body two_programs))
      (UniformValue 1 1 0) = get two_programs (UniformValue 1 1 0).
Proof.
  split; [ reflexivity | split ].
  - apply (proj2 (proj1 (uniform_scope_lookups zero_stack some_matrix 7 "mvp" 0 draw_body
                           two_programs) eq_refl) eq_refl eq_refl eq_refl 5%nat).
    repeat constructor.
  - apply (proj2 (proj2 (uniform_scope_lookups zero_stack some_matrix 7 "alpha" 0 draw_body
                           two_programs) eq_refl) eq_refl eq_refl eq_refl).
Defined.

Lemma viewport_scope_witness :
  falls_through (result_of (draw_body (ctx_of (glViewport 10 10 100 100 blank_context))))
  = true /\
  get (ctx_of (stmt (plain_unit RESET (scope_glViewport 10 10 100 100)) 2 draw_body
                    blank_context)) (Viewport 2) = 0 /\
  get_components Viewport 4
    (ctx_of (stmt (plain_unit RESTORE (scope_glViewport 10 10 100 100)) 2 empty_body
                  (set_components Viewport 0 [0; 0; 800; 600] blank_context)))
  = [0; 0; 800; 600].
Proof.
  split; [ reflexivity | split ].
  - apply (proj1 (proj2 (proj2 (viewport_scope zero_stack 11 12 glFrontFace null_ignored
                                  10 10 100 100 0 draw_body blank_context eq_refl)))).
    repeat constructor.
  - apply (proj2 (proj2 (proj2 (viewport_scope zero_stack 11 12 glFrontFace null_ignored
                                  10 10 100 100 0 draw_body blank_context eq_refl)))).
Defined.

Lemma ssbo_scope_witness :
  falls_through
    (result_of (draw_body (entered (plain_unit RESTORE (scope_glBindSSBO 6 2)) storage_bound)))
  = true /\
  get storage_bound (BufferBaseBinding GL_SHADER_STORAGE_BUFFER 2) = 8 /\
  get (ctx_of (stmt (plain_unit RESTORE (scope_glBindSSBO 6 2)) 2 draw_body storage_bound))
      (BufferBaseBinding GL_SHADER_STORAGE_BUFFER 2) = 4.
Proof.
  split; [ reflexivity | split; [ reflexivity | ] ].
  apply (proj1 (proj2 (ssbo_scope zero_stack 11 12 glFrontFace null_ignored 6 2 0 draw_body storage_bound
                         eq_refl))).
Defined.

Lemma scope_frame_witness :
  ~ In CurrentProgram (slots_of (scope_glFrontFace 0x0900)) /\
  get (ctx_of (stmt (plain_unit RESET (scope_glFrontFace 0x0900)) 2 draw_body program_3))
      CurrentProgram = 3.
Proof.
  assert (H : ~ In CurrentProgram (slots_of (scope_glFrontFace 0x0900))).
  { cbn. intros [H | []]. discriminate H. }
  split; [ exact H | ].
  apply (proj1 (proj1 (scope_frame zero_stack 11 12 glFrontFace null_ignored)
                      RESET (scope_glFrontFace 0x0900)
                      0%nat draw_body program_3 CurrentProgram glFrontFace_frontface_like H
                      (fun c' => eq_refl))).
Defined.

Lemma nested_scopes_exit_in_reverse_witness :
  falls_through
    (result_of (draw_body
       (ctx_of (enter_all
                  (map plain_actions
                       [@use_macro RESTORE (scope_glUseProgram 9);
                        @use_macro RESTORE (scope_glUseProgram 5)])
                  program_3)))) = true /\
  log_of (plain_nest 2 [@use_macro RESTORE (scope_glUseProgram 9);
                        @use_macro RESTORE (scope_glUseProgram 5)]
                     draw_body program_3)
  = [Call_glGetIntegerv GL_CURRENT_PROGRAM; Call_glUseProgram 9;
     Call_glGetIntegerv GL_CURRENT_PROGRAM; Call_glUseProgram 5]
    ++ [Call_glDrawArrays GL_TRIANGLES 0 6]
    ++ [Call_glUseProgram 9; Call_glUseProgram 3] /\
  forallb exit_defined
    [@use_macro RESTORE (scope_glUseProgram 2); use_glUniformfv 7 "alpha"] = true /\
  plain_nest 2 [@use_macro RESTORE (scope_glUseProgram 2); use_glUniformfv 7 "alpha"]
             draw_then_break two_programs
  = lifo (map plain_actions
              [@use_macro RESTORE (scope_glUseProgram 2); use_glUniformfv 7 "alpha"])
         draw_then_break two_programs.
Proof.
  split; [ reflexivity | split; [ | split; [ reflexivity | ] ] ].
  - apply (proj1 (proj2 (proj2 (proj2
             (nested_scopes_exit_in_reverse zero_stack 11 12 glFrontFace null_ignored))))
             9 5 0%nat draw_body program_3 eq_refl).
  - apply (proj1 (nested_scopes_exit_in_reverse zero_stack 11 12 glFrontFace null_ignored)
                 RESTORE (@use_macro RESTORE (scope_glUseProgram 2))
                 [use_glUniformfv 7 "alpha"] 0%nat draw_then_break two_programs eq_refl).
Defined.

Lemma transient_names_by_line_witness :
  use_name (@use_macro RESTORE (scope_glBindTexture2D 7))
  = use_name (@use_macro RESTORE (scope_glBindTexture2D 9)) /\
  transients (mk_invocation (@use_macro RESTORE (scope_glBindTexture2D 7)) "tex" (mk_site 12 1))
  = transients (mk_invocation (@use_macro RESTORE (scope_glBindTexture2D 9)) "other"
                              (mk_site 12 40)).
Proof.
  split; [ reflexivity | ].
  apply (proj2 (proj1 (proj2 transient_names_by_line) RESTORE
                  (mk_invocation (@use_macro RESTORE (scope_glBindTexture2D 7)) "tex"
                                 (mk_site 12 1))
                  (mk_invocation (@use_macro RESTORE (scope_glBindTexture2D 9)) "other"
                                 (mk_site 12 40))
                  eq_refl eq_refl)).
  reflexivity.
Defined.

(** * Further properties of the macros *)


Lemma loop_takes_jumps {L : Type} (h : for_header L) fuel body l c :
  is_loop_jump (result_of (loop fuel h body l c)) = false.
Proof.
  revert l c. induction fuel as [| fuel IH]; intros l c; cbn [loop].
  - reflexivity.
  - destruct (cond h l); [ | reflexivity ].
    unfold bind at 1. destruct (body l c) as [[o c2] t2].
    destruct o; cbn [ret]; try reflexivity.
    all: unfold bind; destruct (step h l c2) as [[l' c3] t3];
      specialize (IH l' c3); unfold result_of in *;
      destruct (loop fuel h body l' c3) as [[o' c4] t4]; exact IH.
Qed.

Lemma exec_for_takes_jumps {L : Type} (h : for_header L) fuel body c :
  is_loop_jump (result_of (exec_for fuel h body c)) = false.
Proof.
  unfold exec_for, bind.
  destruct (init h c) as [[l c1] t1].
  pose proof (loop_takes_jumps h fuel body l c1) as H.
  unfold result_of in *. destruct (loop fuel h body l c1) as [[o c2] t2]. exact H.
Qed.

(** X16.  A scope statement never ends in [break] or [continue]: both are
    taken by the macro's own loop and do not reach an enclosing loop. *)
Theorem scope_takes_break_and_continue stack vbo old glF rtn :
  (forall m s fuel body c,
     is_loop_jump (result_of (stmt (_scope stack vbo old glF rtn m s) fuel body c)) = false) /\
  (forall matrix name fuel body c,
     is_loop_jump (result_of (scope_glUniformMatrix4fv stack matrix name fuel body c))
     = false) /\
  (forall val name fuel body c,
     is_loop_jump (result_of (scope_glUniformfv stack val name fuel body c)) = false).
Proof.
  split; [ | split ]; intros; apply exec_for_takes_jumps.
Qed.

Section FurtherProperties.
Variable stack : nat -> Z.
Variables vbo old_vbo_LINE : Z.
Variable glFrontface : Z -> M unit.
Variable read_through_null : texparam_vector_ext -> Z -> Z -> M unit.
Local Abbreviation expand := (_scope stack vbo old_vbo_LINE glFrontface read_through_null).
Local Abbreviation run_scope := (run stack vbo old_vbo_LINE glFrontface read_through_null).
Local Abbreviation actions_of :=
  (actions stack vbo old_vbo_LINE glFrontface read_through_null).
Local Abbreviation nest_of :=
  (nest_scopes stack vbo old_vbo_LINE glFrontface read_through_null).

Lemma init_frame_restore s sl c :
  ~ In sl (slots_of s) ->
  get (ctx_of (init (projT2 (expand RESTORE s)) c)) sl = get c sl.
Proof.
  intros Hsl.
  destruct s; cbn [slots_of] in Hsl; split_target; cbn; other_target.
  all: frame_simpl Hsl; reflexivity.
Qed.

Lemma step_frame m s sl l c :
  ~ In sl (slots_of s) ->
  get (ctx_of (step (projT2 (expand m s)) l c)) sl = get c sl.
Proof.
  intros Hsl.
  destruct m, s; cbn [slots_of] in Hsl; split_target;
    cbn in l; split_locals; cbn; other_target.
  all: try match goal with |- context [negb ?b] => destruct (negb b); cbn end.
  all: frame_simpl Hsl; reflexivity.
Qed.

(** X1.  [_restore_glBindBuffer] never uses its parameter [buffer] nor the
    value it queried: inside the block the target holds what [vbo] names,
    and after a body that falls through or continues it holds what
    [UQ(old_vbo)] names, whatever was bound before. *)
Theorem restore_glBindBuffer_binds_outer_names target buffer fuel body c :
  let h := expand RESTORE (scope_glBindBuffer target buffer) in
  falls_through (result_of (body (entered h c))) = true ->
  log_of (stmt h (S (S fuel)) body c) =
    [Call_glGetIntegerv GL_BUFFER_BINDING; Call_glBindBuffer target vbo]
    ++ log_of (body (entered h c))
    ++ [Call_glBindBuffer target old_vbo_LINE] /\
  get (entered h c) (BufferBinding target) = vbo /\
  get (ctx_of (stmt h (S (S fuel)) body c)) (BufferBinding target) = old_vbo_LINE.
Proof.
  intros h Hb. subst h. unfold entered in *.
  rewrite stmt_guarded, (guarded_falls_through _ _ _ _ Hb).
  cbn [ctx_of log_of fst snd].
  generalize
    (ctx_of (body (ctx_of (init (projT2 (expand RESTORE (scope_glBindBuffer target buffer)))
                                c)))) as c2.
  intros c2. clear Hb.
  split; [ reflexivity | split; cbn; now slot_simpl ].
Qed.

(** X2.  [_restore_glBindFramebuffer] passes the bind target to
    glGetIntegerv, which is no query name, so its local is never written: for
    the three framebuffer targets the exit binds what the uninitialised local
    held, not the framebuffer bound before. *)
Theorem restore_glBindFramebuffer_binds_leftover target fbo fuel body c :
  let h := expand RESTORE (scope_glBindFramebuffer target fbo) in
  In target [GL_FRAMEBUFFER; GL_DRAW_FRAMEBUFFER; GL_READ_FRAMEBUFFER] ->
  falls_through (result_of (body (entered h c))) = true ->
  log_of (stmt h (S (S fuel)) body c) =
    [Call_glGetIntegerv target; Call_glBindFramebuffer target fbo]
    ++ log_of (body (entered h c))
    ++ [Call_glBindFramebuffer target (stack 0%nat)] /\
  forall sl, In sl (slots_of (scope_glBindFramebuffer target fbo)) ->
    get (ctx_of (stmt h (S (S fuel)) body c)) sl = stack 0%nat.
Proof.
  intros h Ht Hb. subst h. unfold entered in *.
  rewrite stmt_guarded, (guarded_falls_through _ _ _ _ Hb).
  cbn [ctx_of log_of fst snd].
  generalize
    (ctx_of (body (ctx_of (init (projT2 (expand RESTORE (scope_glBindFramebuffer target fbo)))
                                c)))) as c2.
  intros c2. clear Hb.
  in_cases Ht; (split; [ reflexivity | ]); intros sl H; in_cases H; cbn; now slot_simpl.
Qed.

Lemma store_GLboolean_zero x b :
  (b = 0 \/ b = 1) ->
  (store_GLboolean x b =? 0) = ((x / 256 =? 0) && (b =? 0))%bool.
Proof.
  intros Hb. unfold store_GLboolean.
  destruct Hb; subst; cbn [Z.modulo].
  - change (0 mod 256) with 0. rewrite Z.add_0_r.
    destruct (Z.eqb_spec (x / 256) 0) as [E | E].
    + rewrite E. reflexivity.
    + cbn. apply Z.eqb_neq. lia.
  - change (1 mod 256) with 1.
    destruct (Z.eqb_spec (x / 256) 0) as [E | E]; cbn; apply Z.eqb_neq; lia.
Qed.

(** X3.  The RESTORE forms of [scope_glEnable] and [scope_glDisable] leave
    the capability enabled exactly when it was enabled before or the three
    bytes of the flag local that the one-byte query does not write held
    something. *)
Theorem restore_capability_flag s cap fuel body c :
  restored_flag s = Some cap ->
  falls_through (result_of (body (entered (expand RESTORE s) c))) = true ->
  enabled (ctx_of (stmt (expand RESTORE s) (S (S fuel)) body c)) cap
  = (enabled c cap || negb (stack 0%nat / 256 =? 0))%bool.
Proof.
  intros H Hb. unfold entered in Hb.
  rewrite stmt_guarded, (guarded_falls_through _ _ _ _ Hb).
  cbn [ctx_of fst snd].
  generalize (ctx_of (body (ctx_of (init (projT2 (expand RESTORE s)) c)))). intros c2.
  clear Hb.
  destruct s; try discriminate H; injection H as <-; cbn.
  all: unfold enabled.
  all: rewrite store_GLboolean_zero by (destruct (get c (Capability enumval) =? 0); auto).
  all: destruct (get c (Capability enumval) =? 0) eqn:E;
       destruct (stack 0%nat / 256 =? 0); cbn; slot_simpl; reflexivity.
Qed.

(** X8.  [_restore_glBindFBO] queries the draw framebuffer only and binds it
    to GL_FRAMEBUFFER on exit: the read framebuffer ends with the draw
    framebuffer of before the scope. *)
Theorem restore_glBindFBO_read_binding fbo fuel body c :
  let h := expand RESTORE (scope_glBindFBO fbo) in
  falls_through (result_of (body (entered h c))) = true ->
  get (ctx_of (stmt h (S (S fuel)) body c)) (FramebufferBinding GL_READ_FRAMEBUFFER)
  = get c (FramebufferBinding GL_DRAW_FRAMEBUFFER).
Proof.
  intros h Hb. subst h. unfold entered in *.
  rewrite stmt_guarded, (guarded_falls_through _ _ _ _ Hb).
  cbn [ctx_of log_of fst snd].
  generalize
    (ctx_of (body (ctx_of (init (projT2 (expand RESTORE (scope_glBindFBO fbo))) c)))) as c2.
  intros c2. cbn. now slot_simpl.
Qed.

Lemma stmt_restores s fuel body c sl :
  In sl (restored_slots s) ->
  falls_through (result_of (body (entered (expand RESTORE s) c))) = true ->
  result_of (stmt (expand RESTORE s) (S (S fuel)) body c) = Normal /\
  get (ctx_of (stmt (expand RESTORE s) (S (S fuel)) body c)) sl = get c sl.
Proof.
  intros H Hb. unfold entered in Hb.
  rewrite stmt_guarded, (guarded_falls_through _ _ _ _ Hb).
  split; [ reflexivity | ]. cbn [ctx_of fst snd].
  now apply restore_step_restores.
Qed.

(** X4.  Any number of RESTORE scopes written one after another, each of
    which restores the slot and has a body that falls through or continues,
    leave the slot with the value it had before the first scope. *)
Theorem scopes_in_sequence_restore (sl : slot) (scopes : list (scope_macro * M outcome))
    fuel c :
  Forall (fun sb => In sl (restored_slots (fst sb)) /\
                    forall c', falls_through (result_of (snd sb c')) = true) scopes ->
  get (ctx_of (block (map (fun sb => stmt (expand RESTORE (fst sb)) (S (S fuel)) (snd sb))
                          scopes) c)) sl
  = get c sl.
Proof.
  intros H. revert c. induction H as [| [s body] scopes [Hin Hb] _ IH]; intros c.
  - reflexivity.
  - cbn [map block fst snd]. unfold seq_stmt, bind.
    destruct (stmt_restores s fuel body c sl Hin (Hb _)) as [Ho Hc].
    unfold result_of, ctx_of in *.
    destruct (stmt (expand RESTORE s) (S (S fuel)) body c) as [[o c1] t1].
    cbn in Ho, Hc. subst o.
    specialize (IH c1).
    destruct (block _ c1) as [[o2 c2] t2]. cbn in *. congruence.
Qed.

Lemma enter_all_ctx_cons a scopes c :
  ctx_of (enter_all (a :: scopes) c) = ctx_of (enter_all scopes (ctx_of (enter a c))).
Proof.
  cbn [enter_all]. unfold bind, ctx_of.
  destruct (enter a c) as [[l c1] t1]. cbn.
  destruct (enter_all scopes c1) as [[fs c2] t2]. reflexivity.
Qed.


Lemma lifo_outcome h hs body c :
  reaches_step (S (List.length hs)) (result_of (body (ctx_of (enter_all (h :: hs) c)))) = true ->
  result_of (lifo (h :: hs) body c) = Normal.
Proof.
  unfold lifo, result_of, ctx_of.
  destruct (enter_all (h :: hs) c) as [[fs c1] t1]. cbn [fst snd].
  destruct (body c1) as [[o c2] t2]. cbn [fst snd].
  destruct o; cbn; try discriminate; intros _.
  all: match goal with
       | |- context [exit_all ?x ?c] => destruct (exit_all x c) as [[[] ?] ?]
       end; reflexivity.
Qed.

Lemma guarded_frame_at {L X : Type} (enter : M L) (exit : L -> M X) body c sl :
  get (ctx_of (enter c)) sl = get c sl ->
  (forall l c', get (ctx_of (exit l c')) sl = get c' sl) ->
  get (ctx_of (body (ctx_of (enter c)))) sl = get (ctx_of (enter c)) sl ->
  get (ctx_of (guarded enter exit body c)) sl = get c sl.
Proof.
  intros He Hx Hb. unfold guarded. unfold ctx_of in *.
  destruct (enter c) as [[l c1] t1]; cbn in *.
  destruct (body c1) as [[o c2] t2]; cbn in *.
  specialize (Hx l c2).
  destruct o; cbn; try congruence;
    destruct (exit l c2) as [[x c3] t3]; cbn in *; congruence.
Qed.

Lemma leave_frame {m : mode} (u : scope_use m) sl l c :
  exit_defined u = true ->
  ~ addresses u sl ->
  get (ctx_of (leave (actions_of u) l c)) sl = get c sl.
Proof.
  destruct u as [m s | ext param val | m matrix name | m val name];
    cbn [addresses actions header_actions leave exit_defined] in *; intros Hd Hsl.
  - now apply step_frame.
  - discriminate Hd.
  - destruct l as [prog [mat i]]. cbn -[firstn].
    apply set_components_other_upto. intros j _ E. apply Hsl. now subst sl.
  - destruct l as [prog [old i]]. cbn.
    apply get_set_other. intros E. apply Hsl. now subst sl.
Qed.

Lemma enter_frame_restore (u : scope_use RESTORE) sl c :
  ~ addresses u sl ->
  get (ctx_of (enter (actions_of u) c)) sl = get c sl.
Proof.
  pattern u. apply scope_use_RESTORE_cases; clear u;
    cbn [addresses actions header_actions enter]; intros.
  - now apply init_frame_restore.
  - cbn -[firstn]. apply set_components_other_upto. intros j _ E.
    match goal with H : ~ _ |- _ => apply H end. now subst sl.
  - cbn. apply get_set_other. intros E.
    match goal with H : ~ _ |- _ => apply H end. now subst sl.
Qed.

(** The block inside a scope with [inner] scopes nested in it ends the
    statement of that scope normally when the step of the scope is reached. *)
Lemma inner_falls_through {m : mode} (inner : list (scope_use m)) fuel body c :
  reaches_step (List.length inner)
               (result_of (body (ctx_of (enter_all (map actions_of inner) c)))) = true ->
  falls_through (result_of (nest_of (S (S fuel)) inner body c)) = true.
Proof.
  destruct inner as [| u inner].
  - cbn. destruct (result_of (body c)); try discriminate; reflexivity.
  - intros H. rewrite nest_scopes_lifo. cbn [map] in *.
    rewrite lifo_outcome; [ reflexivity | ].
    cbn [List.length] in H. rewrite length_map.
    destruct (result_of (body _)); try discriminate; reflexivity.
Qed.

(** X9.  In a nest of RESTORE scopes of any kind, a slot that a scope
    restores and that no scope around it may write holds its old value after
    the nest, when the body falls through or continues, and also when the
    body executes [break] and the scope is not the innermost one. *)
Theorem nested_scope_restores (outer : list (scope_use RESTORE)) s
    (inner : list (scope_use RESTORE)) fuel body c sl :
  let scopes := outer ++ use_macro s :: inner in
  (forall u, In u outer -> ~ addresses u sl) ->
  In sl (restored_slots s) ->
  reaches_step (List.length inner)
               (result_of (body (ctx_of (enter_all (map actions_of scopes) c)))) = true ->
  get (ctx_of (nest_of (S (S fuel)) scopes body c)) sl = get c sl.
Proof.
  intros scopes Hout Hin Hb. subst scopes. revert c Hb.
  induction outer as [| u0 outer IH]; intros c Hb.
  - cbn [app map nest_scopes] in *. rewrite run_guarded.
    rewrite enter_all_ctx_cons in Hb.
    rewrite (guarded_falls_through _ _ _ _ (inner_falls_through inner fuel body _ Hb)).
    cbn [ctx_of fst snd actions header_actions enter leave].
    now apply restore_step_restores.
  - cbn [app map nest_scopes] in *. rewrite run_guarded.
    assert (Hu0 : ~ addresses u0 sl) by (apply Hout; now left).
    apply guarded_frame_at.
    + now apply enter_frame_restore.
    + intros l c'. apply leave_frame; [ | exact Hu0 ].
      pattern u0. apply scope_use_RESTORE_cases; reflexivity.
    + apply IH.
      * intros u' H'. apply Hout. now right.
      * rewrite enter_all_ctx_cons in Hb. exact Hb.
Qed.

(** X5.  In either mode the body starts in a context in which every slot of
    the macro holds the value the macro was given. *)
Theorem body_sees_new_value m s c sl v :
  In (sl, v) (applied vbo m s) ->
  get (entered (expand m s) c) sl = v.
Proof.
  intros H. unfold entered.
  destruct m, s; cbn [applied slots_of] in H; split_target; in_cases H;
    match goal with
    | H : (_, _) = (_, _) |- _ => injection H as <- <-
    end; cbn; other_target; now slot_simpl.
Qed.

(** X6.  The mode changes the exit only: the body starts in the same
    context in RESTORE mode and in RESET mode, for every macro but
    [scope_glBindBuffer] (unless [vbo] names the buffer given) and
    [scope_glFrontFace] (unless [glFrontface] acts as [glFrontFace]). *)
Theorem modes_enter_alike s c :
  (forall target buffer, s = scope_glBindBuffer target buffer -> vbo = buffer) ->
  (forall orient, s = scope_glFrontFace orient ->
     ctx_of (glFrontface orient c) = ctx_of (glFrontFace orient c)) ->
  entered (expand RESTORE s) c = entered (expand RESET s) c.
Proof.
  intros Hv Hf. unfold entered.
  destruct s; try reflexivity.
  - rewrite (Hv _ _ eq_refl). reflexivity.
  - specialize (Hf _ eq_refl). cbn. unfold bind, ctx_of in *.
    destruct (glFrontface orient c) as [[? ?] ?]. cbn in *. now rewrite Hf.
Qed.

(** X7.  No exit action reads the context, in either mode, and in RESET
    mode no enter action does either (for [_unset_glFrontFace], as far as
    [glFrontface] does not). *)
Theorem exits_and_reset_never_query :
  (forall orient c, existsb is_query (log_of (glFrontface orient c)) = false) ->
  (forall m s l c, existsb is_query (log_of (step (projT2 (expand m s)) l c)) = false) /\
  (forall s c, existsb is_query (log_of (init (projT2 (expand RESET s)) c)) = false).
Proof.
  intros Hf. split.
  - intros m s l c. destruct m, s; cbn in l; split_locals; cbn; try reflexivity.
    all: match goal with |- context [negb ?b] => destruct (negb b) end; reflexivity.
  - intros s c. destruct s; cbn; try reflexivity.
    specialize (Hf orient c). unfold bind, log_of in *.
    destruct (glFrontface orient c) as [[? ?] t]. cbn in *. now rewrite app_nil_r.
Qed.

Lemma set_components_other f k vs c sl :
  (forall j, f j <> sl) ->
  get (set_components f k vs c) sl = get c sl.
Proof.
  intros H. revert k c. induction vs as [| v vs IH]; intros k c; cbn [set_components].
  - reflexivity.
  - rewrite IH. now apply get_set_other.
Qed.

(** X12.  Inside a uniform scope the uniform of the current program holds
    the new value: the sixteen floats of the matrix, or the float. *)
Theorem uniform_body_sees_new_value matrix val name c :
  let P := get c CurrentProgram in
  let loc := uniform_location c P name in
  (List.length matrix = 16%nat ->
   forall k, (k < 16)%nat ->
     get (ctx_of (uniform_enter stack
                    (fun prog => uniformMatrix4fv_inner stack prog matrix name) c))
         (UniformValue P loc k) = nth k matrix 0) /\
  get (ctx_of (uniform_enter stack (fun prog => uniformfv_inner stack prog val name) c))
      (UniformValue P loc 0) = val.
Proof.
  intros P loc. subst P loc. split.
  - intros Hlen k Hk.
    do 16 (destruct matrix as [| ? matrix]; [ discriminate Hlen | ]).
    destruct matrix; [ | discriminate Hlen ].
    do 16 (destruct k as [| k]; [ cbn; now slot_simpl | ]). lia.
  - cbn. apply get_set_same.
Qed.

(** X13.  A uniform scope writes uniform values only: every other slot, the
    current program among them, holds after the scope what it held before,
    provided the body preserves it; this holds on every exit path. *)
Theorem uniform_scopes_frame matrix val name fuel body c sl :
  is_uniform_value sl = false ->
  (forall c', get (ctx_of (body c')) sl = get c' sl) ->
  get (ctx_of (scope_glUniformMatrix4fv stack matrix name (S (S fuel)) body c)) sl = get c sl /\
  get (ctx_of (scope_glUniformfv stack val name (S (S fuel)) body c)) sl = get c sl.
Proof.
  intros Hsl Hb.
  assert (Hne : forall p l j, UniformValue p l j <> sl).
  { intros p l j E. subst sl. discriminate Hsl. }
  split.
  - rewrite scope_glUniformMatrix4fv_guarded. apply guarded_frame; [ | | exact Hb ].
    + intros c'. cbn. apply set_components_other. intros j. apply Hne.
    + intros [prog [mat i]] c'. cbn. apply set_components_other. intros j. apply Hne.
  - rewrite scope_glUniformfv_guarded. apply guarded_frame; [ | | exact Hb ].
    + intros c'. cbn. apply get_set_other, Hne.
    + intros [prog [old i]] c'. cbn. apply get_set_other, Hne.
Qed.

(** X10.  In a nest of RESET scopes of any kind whose exit is defined, a
    slot of a mode-switched scope that no scope around it may write holds the
    reset value of that scope after the nest, when the body falls through or
    continues, and also when the body executes [break] and the scope is not
    the innermost one. *)
Theorem nested_scope_resets (outer : list (scope_use RESET)) s
    (inner : list (scope_use RESET)) fuel body c sl :
  let scopes := outer ++ use_macro s :: inner in
  forallb exit_defined scopes = true ->
  (forall u, In u outer -> ~ addresses u sl) ->
  In sl (reset_slots s) ->
  reaches_step (List.length inner)
               (result_of (body (ctx_of (enter_all (map actions_of scopes) c)))) = true ->
  get (ctx_of (nest_of (S (S fuel)) scopes body c)) sl = reset_value s.
Proof.
  intros scopes Hdef Hout Hin Hb. subst scopes. revert c Hb.
  induction outer as [| u0 outer IH]; intros c Hb.
  - cbn [app map nest_scopes] in *. rewrite run_guarded.
    rewrite enter_all_ctx_cons in Hb.
    rewrite (guarded_falls_through _ _ _ _ (inner_falls_through inner fuel body _ Hb)).
    cbn [ctx_of fst snd actions header_actions enter leave].
    now apply reset_step_resets.
  - cbn [app map nest_scopes forallb] in *. rewrite run_guarded.
    apply andb_prop in Hdef. destruct Hdef as [Hd0 Hdef].
    assert (Hu0 : ~ addresses u0 sl) by (apply Hout; now left).
    assert (Hinner :
              get (ctx_of (nest_of (S (S fuel)) (outer ++ use_macro s :: inner) body
                                   (ctx_of (enter (actions_of u0) c)))) sl
              = reset_value s).
    { apply IH.
      - exact Hdef.
      - intros u' H'. apply Hout. now right.
      - rewrite enter_all_ctx_cons in Hb. exact Hb. }
    revert Hinner.
    generalize (nest_of (S (S fuel)) (outer ++ use_macro s :: inner) body).
    intros inner_stmt Hinner.
    pose proof (leave_frame u0 sl) as Hx.
    unfold guarded, ctx_of in *.
    destruct (enter (actions_of u0) c) as [[l c1] t1]. cbn [fst snd] in *.
    destruct (inner_stmt c1) as [[o c2] t2]. cbn [fst snd] in *.
    specialize (Hx l c2 Hd0 Hu0).
    destruct o; cbn; try exact Hinner;
      destruct (leave (actions_of u0) l c2) as [[? ?] ?]; cbn in *; congruence.
Qed.


(** X11.  For a target the lookup does not know, [_restore_glBindTexture]
    queries the name 0, which writes nothing, and on exit binds what its
    uninitialised local held. *)
Theorem restore_glBindTexture_unknown_target target texture fuel body c :
  let h := expand RESTORE (scope_glBindTexture target texture) in
  _scope_gl_map_texture_target_to_binding target = 0 ->
  falls_through (result_of (body (entered h c))) = true ->
  log_of (stmt h (S (S fuel)) body c) =
    [Call_glGetIntegerv 0; Call_glBindTexture target texture]
    ++ log_of (body (entered h c))
    ++ [Call_glBindTexture target (stack 0%nat)] /\
  get (ctx_of (stmt h (S (S fuel)) body c)) (TextureBinding target) = stack 0%nat.
Proof.
  intros h Ht Hb. subst h. unfold entered in *.
  rewrite stmt_guarded, (guarded_falls_through _ _ _ _ Hb).
  cbn [ctx_of log_of fst snd].
  generalize
    (ctx_of (body (ctx_of (init (projT2 (expand RESTORE (scope_glBindTexture target texture)))
                                c)))) as c2.
  intros c2. clear Hb. cbn. rewrite Ht. cbn.
  split; [ reflexivity | now slot_simpl ].
Qed.
End FurtherProperties.

(** X14.  On one line, two variables get the same transient name exactly
    when they are the same variable: the locals of one invocation never
    collide with each other. *)
Theorem transient_names_by_variable var1 var2 line :
  UQ var1 line = UQ var2 line <-> var1 = var2.
Proof.
  unfold UQ, CONCAT, TOKEN_PASTE. split.
  - apply append_inj_l.
  - now intros ->.
Qed.

(** X15.  The lookup sends different known targets to different binding
    names. *)
Theorem texture_target_lookup_injective t1 t2 :
  _scope_gl_map_texture_target_to_binding t1 <> 0 ->
  _scope_gl_map_texture_target_to_binding t1 = _scope_gl_map_texture_target_to_binding t2 ->
  t1 = t2.
Proof.
  unfold _scope_gl_map_texture_target_to_binding.
  repeat match goal with
         | |- context [if ?a =? ?b then _ else _] =>
             destruct (Z.eqb_spec a b)
         end; subst; intros Hnz H; try reflexivity; try discriminate H.
  now elim Hnz.
Qed.

(** ** Instances of the further properties *)

Lemma restore_glBindBuffer_witness :
  falls_through
    (result_of (draw_body (entered (plain_unit RESTORE (scope_glBindBuffer GL_ARRAY_BUFFER 5))
                                   blank_context))) = true /\
  get (entered (plain_unit RESTORE (scope_glBindBuffer GL_ARRAY_BUFFER 5)) blank_context)
      (BufferBinding GL_ARRAY_BUFFER) = 11 /\
  get (ctx_of (stmt (plain_unit RESTORE (scope_glBindBuffer GL_ARRAY_BUFFER 5)) 2 draw_body
                    blank_context)) (BufferBinding GL_ARRAY_BUFFER) = 12.
Proof.
  split; [ reflexivity | ].
  apply (proj2 (restore_glBindBuffer_binds_outer_names zero_stack 11 12 glFrontFace null_ignored
                  GL_ARRAY_BUFFER 5 0 draw_body blank_context eq_refl)).
Defined.

Lemma restore_glBindFramebuffer_witness :
  In GL_FRAMEBUFFER [GL_FRAMEBUFFER; GL_DRAW_FRAMEBUFFER; GL_READ_FRAMEBUFFER] /\
  get split_framebuffers (FramebufferBinding GL_DRAW_FRAMEBUFFER) = 4 /\
  get (ctx_of (stmt (_scope dirty_stack 11 12 glFrontFace null_ignored RESTORE
                            (scope_glBindFramebuffer GL_FRAMEBUFFER 5))
                    2 draw_body split_framebuffers))
      (FramebufferBinding GL_DRAW_FRAMEBUFFER) = 0xFFFFFFFF.
Proof.
  split; [ left; reflexivity | split; [ reflexivity | ] ].
  apply (proj2 (restore_glBindFramebuffer_binds_leftover dirty_stack 11 12 glFrontFace null_ignored
                  GL_FRAMEBUFFER 5 0 draw_body split_framebuffers
                  (or_introl eq_refl) eq_refl)).
  left. reflexivity.
Defined.

Lemma restore_capability_flag_witness :
  restored_flag (scope_glEnable GL_BLEND) = Some GL_BLEND /\
  enabled blank_context GL_BLEND = false /\
  enabled (ctx_of (stmt (_scope dirty_stack 11 12 glFrontFace null_ignored RESTORE (scope_glEnable GL_BLEND))
                        2 draw_body blank_context)) GL_BLEND = true.
Proof.
  split; [ reflexivity | split; [ reflexivity | ] ].
  apply (restore_capability_flag dirty_stack 11 12 glFrontFace null_ignored (scope_glEnable GL_BLEND)
           GL_BLEND 0 draw_body blank_context eq_refl eq_refl).
Defined.

Lemma scopes_in_sequence_restore_witness :
  get (ctx_of (block [stmt (plain_unit RESTORE (scope_glUseProgram 9)) 2 draw_body;
                      stmt (plain_unit RESTORE (scope_glUseProgram 5)) 2 empty_body]
                     program_3)) CurrentProgram = 3.
Proof.
  apply (scopes_in_sequence_restore zero_stack 11 12 glFrontFace null_ignored CurrentProgram
           [(scope_glUseProgram 9, draw_body); (scope_glUseProgram 5, empty_body)]
           0 program_3).
  repeat apply Forall_cons; try apply Forall_nil.
  - split; [ left; reflexivity | intros c'; reflexivity ].
  - split; [ left; reflexivity | intros c'; reflexivity ].
Defined.

Lemma body_sees_new_value_witness :
  In (BufferBaseBinding GL_SHADER_STORAGE_BUFFER 2, 6)
     (applied 11 RESET (scope_glBindSSBO 6 2)) /\
  get (entered (plain_unit RESET (scope_glBindSSBO 6 2)) storage_bound)
      (BufferBaseBinding GL_SHADER_STORAGE_BUFFER 2) = 6.
Proof.
  assert (H : In (BufferBaseBinding GL_SHADER_STORAGE_BUFFER 2, 6)
                 (applied 11 RESET (scope_glBindSSBO 6 2))).
  { right. left. reflexivity. }
  split; [ exact H | ].
  apply (body_sees_new_value zero_stack 11 12 glFrontFace null_ignored RESET (scope_glBindSSBO 6 2)
           storage_bound _ _ H).
Defined.

Lemma modes_enter_alike_witness :
  entered (plain_unit RESTORE (scope_glViewport 10 10 100 100)) blank_context
  = entered (plain_unit RESET (scope_glViewport 10 10 100 100)) blank_context.
Proof.
  apply (modes_enter_alike zero_stack 11 12 glFrontFace null_ignored).
  - intros target buffer H. discriminate H.
  - intros orient H. discriminate H.
Defined.

Lemma exits_and_reset_never_query_witness :
  existsb is_query
    (log_of (init (projT2 (plain_unit RESET (scope_glFrontFace 0x0900))) blank_context))
  = false.
Proof.
  apply (proj2 (exits_and_reset_never_query zero_stack 11 12 glFrontFace null_ignored
                  (fun orient c => eq_refl))).
Defined.

Lemma restore_glBindFBO_read_binding_witness :
  get split_framebuffers (FramebufferBinding GL_READ_FRAMEBUFFER) = 8 /\
  get (ctx_of (stmt (plain_unit RESTORE (scope_glBindFBO 5)) 2 draw_body split_framebuffers))
      (FramebufferBinding GL_READ_FRAMEBUFFER) = 4.
Proof.
  split; [ reflexivity | ].
  apply (restore_glBindFBO_read_binding zero_stack 11 12 glFrontFace null_ignored 5 0 draw_body
           split_framebuffers eq_refl).
Defined.

Lemma nested_scope_restores_witness :
  get (ctx_of (plain_nest 2 [@use_macro RESTORE (scope_glEnable GL_BLEND);
                             use_glUniformfv 7 "alpha";
                             use_macro (scope_glUseProgram 2);
                             use_macro (scope_glBindTexture2D 7)]
                          draw_then_break two_programs)) CurrentProgram = 1 /\
  get (ctx_of (plain_nest 2 [@use_macro RESTORE (scope_glEnable GL_BLEND);
                             use_glUniformfv 7 "alpha";
                             use_macro (scope_glUseProgram 2);
                             use_macro (scope_glBindTexture2D 7)]
                          draw_then_break two_programs)) (TextureBinding GL_TEXTURE_2D) = 7.
Proof.
  split; [ | reflexivity ].
  apply (nested_scope_restores zero_stack 11 12 glFrontFace null_ignored
           [@use_macro RESTORE (scope_glEnable GL_BLEND); use_glUniformfv 7 "alpha"]
           (scope_glUseProgram 2) [use_macro (scope_glBindTexture2D 7)]
           0%nat draw_then_break two_programs CurrentProgram).
  - intros u [<- | [<- | []]]; cbn.
    + intros [H | []]. discriminate H.
    + discriminate.
  - left. reflexivity.
  - reflexivity.
Defined.

Lemma nested_scope_resets_witness :
  get (ctx_of (plain_nest 2 [@use_macro RESET (scope_glEnable GL_BLEND);
                             use_glUniformfv 7 "alpha";
                             use_macro (scope_glUseProgram 2);
                             use_macro (scope_glBindTexture2D 7)]
                          draw_then_break two_programs)) CurrentProgram = 0.
Proof.
  apply (nested_scope_resets zero_stack 11 12 glFrontFace null_ignored
           [@use_macro RESET (scope_glEnable GL_BLEND); use_glUniformfv 7 "alpha"]
           (scope_glUseProgram 2) [use_macro (scope_glBindTexture2D 7)]
           0%nat draw_then_break two_programs CurrentProgram).
  - reflexivity.
  - intros u [<- | [<- | []]]; cbn.
    + intros [H | []]. discriminate H.
    + discriminate.
  - left. reflexivity.
  - reflexivity.
Defined.


Lemma restore_glBindTexture_unknown_target_witness :
  _scope_gl_map_texture_target_to_binding GL_FRAMEBUFFER = 0 /\
  get (ctx_of (stmt (_scope dirty_stack 11 12 glFrontFace null_ignored RESTORE
                            (scope_glBindTexture GL_FRAMEBUFFER 7))
                    2 draw_body blank_context)) (TextureBinding GL_FRAMEBUFFER)
  = 0xFFFFFFFF.
Proof.
  split; [ reflexivity | ].
  apply (proj2 (restore_glBindTexture_unknown_target dirty_stack 11 12 glFrontFace null_ignored
                  GL_FRAMEBUFFER 7 0 draw_body blank_context eq_refl eq_refl)).
Defined.

Lemma uniform_body_sees_new_value_witness :
  List.length some_matrix = 16%nat /\
  get (ctx_of (uniform_enter zero_stack
                 (fun prog => uniformMatrix4fv_inner zero_stack prog some_matrix "mvp")
                 two_programs)) (UniformValue 1 0 5) = 6.
Proof.
  split; [ reflexivity | ].
  apply (proj1 (uniform_body_sees_new_value zero_stack some_matrix 7 "mvp" two_programs)
           eq_refl 5%nat).
  repeat constructor.
Defined.

Lemma uniform_scopes_frame_witness :
  get (ctx_of (scope_glUniformMatrix4fv zero_stack some_matrix "mvp" 2 (switch_program_body 2)
                                        two_programs)) VertexArrayBinding
  = get two_programs VertexArrayBinding.
Proof.
  apply (proj1 (uniform_scopes_frame zero_stack some_matrix 7 "mvp" 0 (switch_program_body 2)
                  two_programs VertexArrayBinding eq_refl (fun c' => eq_refl))).
Defined.

Lemma texture_target_lookup_injective_witness :
  _scope_gl_map_texture_target_to_binding GL_TEXTURE_3D <> 0 /\
  GL_TEXTURE_3D = 0x806F.
Proof.
  assert (H : _scope_gl_map_texture_target_to_binding GL_TEXTURE_3D <> 0)
    by discriminate.
  split; [ exact H | ].
  apply (texture_target_lookup_injective GL_TEXTURE_3D 0x806F H eq_refl).
Defined.
